(** * The contract-interaction client of the encrypted-file NFT front end

    A shallow embedding of [src/components/Blockchain/contract.ts]: the
    module-level Connection State (provider, signer, contract), its
    initializer, the Event Extractor [getEvent] and the Call Adapter
    functions, followed by the properties the specification states about
    them.

    Modelling conventions.
    - An [async] function is a computation in the monad [M]: it threads the
      world (Connection State plus the trace of observable effects) and ends
      in a value or in a thrown error. [await] of an external promise is the
      sequencing of [M]; a rejected promise is [Throw]. Functions run one at
      a time: interleaving of two calls at an [await] is not modelled.
    - [null] and [undefined] of an optional value are both [None].
    - A [bigint] is an integer [Z]. A [number] argument is an
      integer-valued double, given by its value in [Z]; where the code
      computes with numbers ([Number(...)], [+]) the result is rounded to
      the nearest double, as IEEE 754 does, and is a [JsNumber].
    - The values ethers decodes from ABI data are held in its [Result]
      arrays, whose index access throws a RangeError past the end.
    - ethers.js, the injected wallet and the deployed contract are external:
      they appear as records of responses, over which every theorem
      quantifies. *)

From Stdlib Require Import String ZArith List Bool Lia.
From Stdlib Require Import Strings.Byte.
Import ListNotations.

Local Open Scope string_scope.
Local Open Scope Z_scope.

(** ** Values *)

(** A thrown JavaScript value. [Error] and [TypeError] are raised by the
    module itself (explicit [throw], member access on [undefined]) and by
    ethers' decoder; [ReferenceError] by a missing global; [RangeError] by
    an index past the end of an ethers [Result]; [Rejected] is an error object
    produced by ethers or by the wallet (CALL_EXCEPTION for a revert,
    NETWORK_ERROR, ACTION_REJECTED, ...). *)
Inductive JsError : Type :=
| Error (message : string)
| TypeError (message : string)
| ReferenceError (message : string)
| RangeError (message : string)
| Rejected (code : string) (message : string).

(** The result of evaluating an expression or awaiting a promise. *)
Inductive outcome (A : Type) : Type :=
| Ok (a : A)
| Throw (e : JsError).
Arguments Ok {A} a.
Arguments Throw {A} e.

(** A value of type [any] as decoded by ethers from ABI data, plus
    [undefined]. *)
Inductive JsVal : Type :=
| VUndefined
| VBigInt (z : Z)
| VBool (b : bool)
| VStr (s : string).

(** A JavaScript number: an integer value, an infinity or [NaN].
    [NumOfStr s] stands for the number that ECMAScript's StringToNumber
    assigns to [s]; it is left uninterpreted. *)
Inductive JsNumber : Type :=
| Num (z : Z)
| NaN
| NumOfStr (s : string)
| Infinity
| NegInfinity.

(** The double nearest to the integer [z], ties to the even significand:
    exact below 2^53; above, the 53 leading bits are kept and the rest is
    rounded; past the largest finite double the result is an infinity. *)
Definition round_double (z : Z) : JsNumber :=
  let a := Z.abs z in
  if a <? 2 ^ 53 then Num z
  else
    let e := Z.log2 a - 52 in
    let q := Z.shiftr a e in
    let r := a - Z.shiftl q e in
    let half := Z.shiftl 1 (e - 1) in
    let q' := if (half <? r) || ((r =? half) && Z.odd q) then q + 1 else q in
    let m := Z.shiftl q' e in
    if 2 ^ 1024 <=? m
    then (if z <? 0 then NegInfinity else Infinity)
    else Num (Z.sgn z * m).

(** [Number(v)]. *)
Definition Number (v : JsVal) : JsNumber :=
  match v with
  | VUndefined => NaN
  | VBigInt z => round_double z
  | VBool b => Num (if b then 1 else 0)
  | VStr s => NumOfStr s
  end.

(** [a + b] on two integer-valued numbers [a] and [b] (each of them a
    double): the exact sum, rounded as IEEE 754 addition rounds it. *)
Definition js_add (a b : Z) : JsNumber := round_double (a + b).

(** [result[index]] on an ethers [Result]. *)
Definition result_get {A} (items : list A) (index : nat) : outcome A :=
  match nth_error items index with
  | Some item => Ok item
  | None => Throw (RangeError "out of result range")
  end.

(** [interface TokenDetails]. [tokenId] is the value stored: the number
    [Number(...)] gave, or the element of the response handed over as it
    is. [cidHash] is [Some] string; [None] would be a stored [undefined],
    which none of the functions below produces. *)
Record TokenDetails : Type := mkTokenDetails {
  tokenId : JsNumber;
  cidHash : option string
}.

(** ** The external collaborators *)

(** A raw log entry of a transaction receipt. *)
Record Log : Type := mkLog {
  log_address : string;
  log_topics : list string;
  log_data : string
}.

(** ethers' [LogDescription]: a decoded event; [ev_args] is a [Result]. *)
Record LogDescription : Type := mkLogDescription {
  ev_name : string;
  ev_args : list JsVal
}.

(** ethers' [TransactionReceipt]; [rc_logs] is [None] when the receipt has
    no [logs] property. *)
Record Receipt : Type := mkReceipt {
  rc_logs : option (list Log)
}.

(** ethers' [TransactionResponse]: [tx_wait] is what [tx.wait()] settles
    to (ethers types it [null | TransactionReceipt]). *)
Record Tx : Type := mkTx {
  tx_hash : string;
  tx_wait : outcome (option Receipt)
}.

(** The first parameter of [shareToken] is annotated [string] and described
    as an array of addresses; both have a [length]. *)
Inductive Recipients : Type :=
| RString (s : string)
| RList (l : list string).

Definition js_length (to : Recipients) : nat :=
  match to with
  | RString s => String.length s
  | RList l => List.length l
  end.

(** The bound contract handle [new ethers.Contract(address, ABI, signer)]:
    one response per method of the ABI, and the interface's [parseLog]:
    [Ok None] ([null]) for a log that matches no event of the interface,
    [Ok (Some ev)] for a decoded event, [Throw] where ethers raises (a log
    without topics, malformed data). The arrays of a range response are
    [Result]s. *)
Record Contract : Type := mkContract {
  c_mintToken : string -> list (list byte) -> outcome Tx;
  c_getTokensInRange : Z -> JsNumber -> outcome (list Z * list string);
  c_getSharedTokensInRange : Z -> JsNumber -> outcome (list Z * list string);
  c_getSharedWithAddresses : Z -> outcome (list string);
  c_transferToken : string -> Z -> outcome Tx;
  c_shareToken : Z -> Recipients -> outcome Tx;
  c_burnToken : Z -> Z -> outcome Tx;
  c_getSupply : outcome Z;
  c_getSharedWithSupply : outcome Z;
  c_reencrypt : Z -> list byte -> string -> outcome (list string);
  c_revokeTokenAccess : Z -> string -> outcome Tx;
  c_revokeAllSharedAccess : Z -> Z -> outcome Tx;
  c_MAX_USERS_TO_REMOVE : outcome Z;
  c_parseLog : Log -> outcome (option LogDescription)
}.

Record Signer : Type := mkSigner {
  s_getAddress : outcome string
}.

Record Provider : Type := mkProvider {
  p_send : string -> outcome unit;
  p_getSigner : outcome Signer
}.

(** The injected wallet object [window.ethereum]. *)
Record Ethereum : Type := mkEthereum {
  e_request : string -> outcome unit
}.

(** The execution environment of the initializer: [window.ethereum]
    ([Throw] when [window] itself is missing, [Ok None] when the property
    is [undefined]) and the two ethers constructors. *)
Record Browser : Type := mkBrowser {
  window_ethereum : outcome (option Ethereum);
  new_BrowserProvider : Ethereum -> outcome Provider;
  new_Contract : string -> option Signer -> outcome Contract
}.

(** ** Connection State and the world *)

(** [let provider], [let signer], [let contract]. *)
Record ConnState : Type := mkConn {
  provider : option Provider;
  signer : option Signer;
  contract : option Contract
}.

(** An argument handed to a contract method. *)
Inductive Arg : Type :=
| AStr (s : string)
| ANum (n : Z)
| ANumber (n : JsNumber)
| ABytes (b : list byte)
| ABytesList (bs : list (list byte))
| ARecipients (to : Recipients).

(** Observable effects, in the order they happen. *)
Inductive Effect : Type :=
| ConsoleError (msg : string) (err : option JsError)
| ConsoleWarn (msg : string)
| ConsoleLog (msg : string) (detail : string)
| ContractCall (method : string) (args : list Arg)
| TxWait (hash : string)
| ProviderSend (method : string)
| ProviderGetSigner
| SignerGetAddress
| WalletRequest (method : string)
| NewBrowserProvider
| NewContract (address : string).

Record World : Type := mkWorld {
  conn : ConnState;
  trace : list Effect
}.

(** ** The monad of asynchronous computations *)

Definition M (A : Type) : Type := World -> outcome A * World.

Definition ret {A} (a : A) : M A := fun w => (Ok a, w).

Definition throw {A} (e : JsError) : M A := fun w => (Throw e, w).

Definition bind {A B} (m : M A) (k : A -> M B) : M B :=
  fun w =>
    match m w with
    | (Ok a, w') => k a w'
    | (Throw e, w') => (Throw e, w')
    end.

(** [try { body } catch (error) { handler }]. *)
Definition try_catch {A} (body : M A) (handler : JsError -> M A) : M A :=
  fun w =>
    match body w with
    | (Ok a, w') => (Ok a, w')
    | (Throw e, w') => handler e w'
    end.

Declare Scope js_scope.
Delimit Scope js_scope with js.
Notation "x <- m ;; k" := (bind m (fun x => k))
  (at level 61, m at next level, right associativity) : js_scope.
Notation "m ;; k" := (bind m (fun _ => k))
  (at level 61, right associativity) : js_scope.
Local Open Scope js_scope.

Definition emit (ev : Effect) : M unit :=
  fun w => (Ok tt, mkWorld (conn w) (trace w ++ [ev])).

(** An interaction with an external object: it is recorded, then settles. *)
Definition external {A} (ev : Effect) (r : outcome A) : M A :=
  fun w => (r, mkWorld (conn w) (trace w ++ [ev])).

Definition console_error (msg : string) (error : JsError) : M unit :=
  emit (ConsoleError msg (Some error)).

Definition console_error_msg (msg : string) : M unit :=
  emit (ConsoleError msg None).

Definition console_warn (msg : string) : M unit :=
  emit (ConsoleWarn msg).

Definition console_log (msg detail : string) : M unit :=
  emit (ConsoleLog msg detail).

(** An expression that reads the environment and may throw. *)
Definition eval {A} (r : outcome A) : M A := fun w => (r, w).

Definition get_conn : M ConnState := fun w => (Ok (conn w), w).

Definition set_provider (p : option Provider) : M unit :=
  fun w => (Ok tt, mkWorld (mkConn p (signer (conn w)) (contract (conn w))) (trace w)).

Definition set_signer (s : option Signer) : M unit :=
  fun w => (Ok tt, mkWorld (mkConn (provider (conn w)) s (contract (conn w))) (trace w)).

Definition set_contract (c : option Contract) : M unit :=
  fun w => (Ok tt, mkWorld (mkConn (provider (conn w)) (signer (conn w)) c) (trace w)).

(** [await contract?.method(args)]: [undefined] without any call when the
    module-level [contract] is absent, the method's response otherwise. *)
Definition contract_call {A} (method : string) (args : list Arg)
    (response : Contract -> outcome A) : M (option A) :=
  c <- get_conn ;;
  match contract c with
  | None => ret None
  | Some h => a <- external (ContractCall method args) (response h) ;; ret (Some a)
  end.

(** [await tx.wait()] for a [tx] of type [any] that is either [undefined]
    or a transaction response. *)
Definition tx_wait_call (tx : option Tx) : M (option Receipt) :=
  match tx with
  | None => throw (TypeError "Cannot read properties of undefined (reading 'wait')")
  | Some t => external (TxWait (tx_hash t)) (tx_wait t)
  end.

(** ** Connection Manager *)

Definition contractAddress : string := "0xDCc49e76b061db2AA11013cB47f5D9ebfC131361".

(** [await provider.getSigner()] on the module-level [provider]. *)
Definition provider_getSigner : M Signer :=
  c <- get_conn ;;
  match provider c with
  | Some p => external ProviderGetSigner (p_getSigner p)
  | None => throw (TypeError "Cannot read properties of null (reading 'getSigner')")
  end.

Definition initializeProviderAndSigner (b : Browser) : M unit :=
  try_catch
    (eth <- eval (window_ethereum b) ;;
     match eth with
     | Some e =>
         p <- external NewBrowserProvider (new_BrowserProvider b e) ;;
         set_provider (Some p) ;;
         external (WalletRequest "eth_requestAccounts") (e_request e "eth_requestAccounts") ;;
         s <- provider_getSigner ;;
         set_signer (Some s) ;;
         c <- get_conn ;;
         h <- external (NewContract contractAddress)
                (new_Contract b contractAddress (signer c)) ;;
         set_contract (Some h)
     | None =>
         console_warn "MetaMask or Web3 provider not found. Please install or enable it." ;;
         set_provider None ;;
         set_signer None ;;
         set_contract None
     end)
    (fun error =>
       console_error "Error initializing Web3 provider:" error ;;
       set_provider None ;;
       set_signer None ;;
       set_contract None).

Definition getAccount : M string :=
  c <- get_conn ;;
  match provider c, signer c with
  | Some p, Some s =>
      try_catch
        (external (ProviderSend "eth_requestAccounts") (p_send p "eth_requestAccounts") ;;
         account <- external SignerGetAddress (s_getAddress s) ;;
         if String.eqb account ""
         then console_error_msg "No accessible accounts. Make sure MetaMask is connected." ;;
              ret ""
         else ret account)
        (fun error =>
           console_error "Could not get access to accounts:" error ;;
           ret "")
  | _, _ => ret ""
  end.

(** ** Event Extractor *)

(** [event?.name === eventName]. *)
Definition name_is (event : option LogDescription) (eventName : string) : bool :=
  match event with
  | Some ev => String.eqb (ev_name ev) eventName
  | None => false
  end.

(** [contract?.interface.parseLog(log)]: no call at all, and
    [undefined], when the handle is absent. *)
Definition parse_log (h : option Contract) (log : Log) : outcome (option LogDescription) :=
  match h with
  | Some c => c_parseLog c log
  | None => Ok None
  end.

(** The loop [for (const log of receipt.logs)], falling through to
    [return null]. *)
Fixpoint scan_logs (eventName : string) (logs : list Log) : M (option LogDescription) :=
  match logs with
  | [] => ret None
  | log :: rest =>
      c <- get_conn ;;
      event <- eval (parse_log (contract c) log) ;;
      if name_is event eventName then ret event else scan_logs eventName rest
  end.

Definition getEvent (tx : option Tx) (eventName : string) : M (option LogDescription) :=
  receipt <- tx_wait_call tx ;;
  match receipt with
  | Some r =>
      match rc_logs r with
      | Some logs => scan_logs eventName logs
      | None => ret None
      end
  | None => ret None
  end.

(** ** Call Adapter *)

Definition mintToken (cidHash : string) (encryptedFileKey : list (list byte)) : M TokenDetails :=
  try_catch
    (txResponse <- contract_call "mintToken" [AStr cidHash; ABytesList encryptedFileKey]
                     (fun h => c_mintToken h cidHash encryptedFileKey) ;;
     tokenMintedEvent <- getEvent txResponse "TokenMinted" ;;
     match tokenMintedEvent with
     | None => throw (Error "TokenMinted event not found.")
     | Some ev =>
         first_arg <- eval (result_get (ev_args ev) 0) ;;
         let tokenId := Number first_arg in
         ret (mkTokenDetails tokenId (Some cidHash))
     end)
    (fun error =>
       console_error "Error in contract.mintToken:" error ;;
       throw error).

(** [result[i]] for the [any]-typed response of a range query. *)
Definition response_at {A B} (field : string) (proj : A -> B) (result : option A) : M B :=
  match result with
  | None => throw (TypeError ("Cannot read properties of undefined (reading '" ++ field ++ "')"))
  | Some r => ret (proj r)
  end.

(** [items.map((x, index) => f x index)] on a [Result]: the callback runs
    on the items in order, and an exception of the callback ends the
    map. *)
Fixpoint map_index {A B} (f : A -> nat -> outcome B) (index : nat) (l : list A)
    : outcome (list B) :=
  match l with
  | [] => Ok []
  | x :: rest =>
      match f x index with
      | Throw e => Throw e
      | Ok y =>
          match map_index f (S index) rest with
          | Throw e => Throw e
          | Ok ys => Ok (y :: ys)
          end
      end
  end.

(** The zip of both range queries; [cidHashs[index]] throws past the end
    of [cidHashs]. *)
Definition pair_tokens (tokenIds : list Z) (cidHashs : list string)
    : outcome (list TokenDetails) :=
  map_index
    (fun tokenId index =>
       match result_get cidHashs index with
       | Ok cid => Ok (mkTokenDetails (Num tokenId) (Some cid))
       | Throw e => Throw e
       end)
    0%nat tokenIds.

Definition getTokensInRange (start count : Z) : M (list TokenDetails) :=
  try_catch
    (let end_ := js_add start count in
     result <- contract_call "getTokensInRange" [ANum start; ANumber end_]
                 (fun h => c_getTokensInRange h start end_) ;;
     tokenIds <- response_at "0" fst result ;;
     cidHashs <- response_at "1" snd result ;;
     tokens <- eval (pair_tokens tokenIds cidHashs) ;;
     ret tokens)
    (fun error =>
       console_error "Error contract.getTokensInRange:" error ;;
       ret []).

Definition getSharedTokensInRange (start count : Z) : M (list TokenDetails) :=
  try_catch
    (let end_ := js_add start count in
     result <- contract_call "getSharedTokensInRange" [ANum start; ANumber end_]
                 (fun h => c_getSharedTokensInRange h start end_) ;;
     tokenIds <- response_at "0" fst result ;;
     cidHashs <- response_at "1" snd result ;;
     tokens <- eval (pair_tokens tokenIds cidHashs) ;;
     ret tokens)
    (fun error =>
       console_error "Error in fetching shared tokens:" error ;;
       ret []).

(** The value returned is the awaited response itself: [None] is
    [undefined]. *)
Definition getSharedWithAddresses (tokenId : Z) : M (option (list string)) :=
  try_catch
    (addresses <- contract_call "getSharedWithAddresses" [ANum tokenId]
                    (fun h => c_getSharedWithAddresses h tokenId) ;;
     ret addresses)
    (fun error =>
       console_error "Error fetching shared addresses:" error ;;
       ret (Some [])).

Definition transferToken (to : string) (tokenId : Z) : M bool :=
  try_catch
    (tx <- contract_call "transferToken" [AStr to; ANum tokenId]
             (fun h => c_transferToken h to tokenId) ;;
     tx_wait_call tx ;;
     ret true)
    (fun error =>
       console_error "Error transferring token:" error ;;
       ret false).

Definition shareToken (to : Recipients) (tokenId : Z) : M bool :=
  try_catch
    ((if Nat.eqb (js_length to) 0
      then throw (Error "Recipient list cannot be empty.")
      else ret tt) ;;
     tx <- contract_call "shareToken" [ANum tokenId; ARecipients to]
             (fun h => c_shareToken h tokenId to) ;;
     tx_wait_call tx ;;
     ret true)
    (fun error =>
       console_error "Error contract.shareToken:" error ;;
       ret false).

(** [tx.hash] for a [tx] that is [undefined] or a transaction response. *)
Definition tx_hash_of (tx : option Tx) : M string :=
  match tx with
  | None => throw (TypeError "Cannot read properties of undefined (reading 'hash')")
  | Some t => ret (tx_hash t)
  end.

Definition burnToken (tokenId limitNumberOfSharedWith : Z) : M bool :=
  try_catch
    (tx <- contract_call "burnToken" [ANum tokenId; ANum limitNumberOfSharedWith]
             (fun h => c_burnToken h tokenId limitNumberOfSharedWith) ;;
     hash <- tx_hash_of tx ;;
     console_log "Transaction hash:" hash ;;
     tx_wait_call tx ;;
     ret true)
    (fun error =>
       console_error "Error contract.burnToken :" error ;;
       ret false).

(** The [any]-typed result of an optional-chained numeric call. *)
Definition any_of (r : option Z) : JsVal :=
  match r with
  | Some z => VBigInt z
  | None => VUndefined
  end.

Definition getSupply : M JsNumber :=
  try_catch
    (totalNFTs <- contract_call "getSupply" [] c_getSupply ;;
     ret (Number (any_of totalNFTs)))
    (fun error =>
       console_error "Failed to fetch the total number of NFTs:" error ;;
       throw error).

Definition getSharedWithSupply : M JsNumber :=
  try_catch
    (totalSharedWithNFTs <- contract_call "getSharedWithSupply" [] c_getSharedWithSupply ;;
     ret (Number (any_of totalSharedWithNFTs)))
    (fun error =>
       console_error "Failed to fetch the total number of NFTs shared: " error ;;
       throw error).

Definition reencrypt (tokenId : Z) (publicKey : list byte) (signature : string) : M (list string) :=
  try_catch
    (data <- contract_call "reencrypt" [ANum tokenId; ABytes publicKey; AStr signature]
               (fun h => c_reencrypt h tokenId publicKey signature) ;;
     match data with
     | None =>
         console_error_msg "No return for contract.reencrypt" ;;
         ret []
     | Some d => ret d
     end)
    (fun error =>
       console_error "Error fetching contract.reencrypt :" error ;;
       ret []).

Definition revokeTokenAccess (tokenId : Z) (userAddress : string) : M bool :=
  try_catch
    (tx <- contract_call "revokeTokenAccess" [ANum tokenId; AStr userAddress]
             (fun h => c_revokeTokenAccess h tokenId userAddress) ;;
     tx_wait_call tx ;;
     ret true)
    (fun error =>
       console_error "Error revoking access:" error ;;
       ret false).

Definition revokeAllSharedAccess (tokenId limitNumberOfSharedWith : Z) : M bool :=
  try_catch
    (tx <- contract_call "revokeAllSharedAccess" [ANum tokenId; ANum limitNumberOfSharedWith]
             (fun h => c_revokeAllSharedAccess h tokenId limitNumberOfSharedWith) ;;
     tx_wait_call tx ;;
     ret true)
    (fun error =>
       console_error "Error revoking all shared access:" error ;;
       ret false).

(** The value returned is the awaited response itself: [None] is
    [undefined]. *)
Definition getMaxUsersToRemove : M (option Z) :=
  try_catch
    (maxUsersToRemove <- contract_call "MAX_USERS_TO_REMOVE" [] c_MAX_USERS_TO_REMOVE ;;
     ret maxUsersToRemove)
    (fun error =>
       console_error "Error fetching MAX_USERS_TO_REMOVE:" error ;;
       ret (Some 0)).

(** ** Vocabulary of the statements *)

(** The world after further effects. *)
Definition after (w : World) (evs : list Effect) : World :=
  mkWorld (conn w) (trace w ++ evs).

(** A log decodes, against the interface of the handle [h], to an event
    named [eventName]. *)
Definition decodes_to (h : option Contract) (eventName : string) (log : Log) : Prop :=
  exists ev, parse_log h log = Ok (Some ev) /\ ev_name ev = eventName.

(** Decoding the log against [h] returns, with no event named
    [eventName]: [null], or an event of another name. *)
Definition skipped (h : option Contract) (eventName : string) (log : Log) : Prop :=
  exists r, parse_log h log = Ok r /\ name_is r eventName = false.

(** The log entries of a confirmation receipt: none for a [null] receipt
    and for a receipt without [logs]. *)
Definition logs_of (receipt : option Receipt) : list Log :=
  match receipt with
  | Some r => match rc_logs r with Some logs => logs | None => [] end
  | None => []
  end.

(** How the scan of [getEvent] ends, as a function of the handle and the
    logs alone: the first event of the wanted name, [null] when the logs
    run out, or the exception of the first decoding that raises before
    either. *)
Fixpoint first_event (h : option Contract) (eventName : string) (logs : list Log)
    : outcome (option LogDescription) :=
  match logs with
  | [] => Ok None
  | log :: rest =>
      match parse_log h log with
      | Throw e => Throw e
      | Ok event =>
          if name_is event eventName then Ok event else first_event h eventName rest
      end
  end.

(** The receipt holds a log that decodes, against the interface of [h], to
    a [TokenMinted] event whose first argument is the integer [n]. *)
Definition holds_minted (h : Contract) (receipt : option Receipt) (n : Z) : Prop :=
  exists log ev,
    In log (logs_of receipt) /\
    c_parseLog h log = Ok (Some ev) /\
    ev_name ev = "TokenMinted" /\
    nth_error (ev_args ev) 0 = Some (VBigInt n).

(** What the [i]-th element of a range query's result must be: the [i]-th
    token identifier of the first response array paired with the [i]-th
    cid hash of the second. *)
Definition paired_at (ids : list Z) (cids : list string) (i : nat) : option TokenDetails :=
  match nth_error ids i, nth_error cids i with
  | Some id, Some cid => Some (mkTokenDetails (Num id) (Some cid))
  | _, _ => None
  end.

(** Provider, signer and contract are all present or all absent. *)
Definition all_or_nothing (c : ConnState) : Prop :=
  (provider c <> None /\ signer c <> None /\ contract c <> None)
  \/ (provider c = None /\ signer c = None /\ contract c = None).

(** A computation that leaves the three module-level bindings as they
    were, whatever it returns or raises. *)
Definition preserves_conn {A} (m : M A) : Prop :=
  forall w, conn (snd (m w)) = conn w.

(** ** Sample collaborators

    Concrete receipts, transactions and a contract handle on which the
    functions are run. *)

(** A decoder. As ethers does, it throws on a log without topics. Among
    the others, the entries whose data reads [minted 5], [minted 7] and
    [minted 2^53+1] are [TokenMinted] events, [shared] is another event of
    the interface, and every other entry matches no event ([null]). *)
Definition sample_parseLog (log : Log) : outcome (option LogDescription) :=
  match log_topics log with
  | [] => Throw (TypeError "Cannot read properties of undefined (reading 'indexOf')")
  | _ :: _ =>
      if String.eqb (log_data log) "minted 5"
      then Ok (Some (mkLogDescription "TokenMinted" [VBigInt 5; VStr "0xA11CE"]))
      else if String.eqb (log_data log) "minted 7"
      then Ok (Some (mkLogDescription "TokenMinted" [VBigInt 7; VStr "0xA11CE"]))
      else if String.eqb (log_data log) "minted 2^53+1"
      then Ok (Some (mkLogDescription "TokenMinted" [VBigInt (2 ^ 53 + 1); VStr "0xA11CE"]))
      else if String.eqb (log_data log) "shared"
      then Ok (Some (mkLogDescription "TokenShared" [VBigInt 7; VStr "0xB0B"]))
      else Ok None
  end.

Definition sample_log (data : string) : Log :=
  mkLog contractAddress ["0x00"] data.

(** A log of an anonymous event without indexed arguments. *)
Definition topicless_log : Log := mkLog "0x0000" [] "0x".

Definition sample_tx (logs : list Log) : Tx :=
  mkTx "0xabc" (Ok (Some (mkReceipt (Some logs)))).

(** A handle whose writes all answer with [tx] and whose reads answer with
    two tokens, two addresses and small counts. *)
Definition sample_contract (tx : Tx) : Contract :=
  mkContract
    (fun _ _ => Ok tx)
    (fun start _ => Ok ([start; start + 1], ["QmA"; "QmB"]))
    (fun start _ => Ok ([start; start + 1], ["QmC"; "QmD"]))
    (fun _ => Ok ["0xA11CE"; "0xB0B"])
    (fun _ _ => Ok tx)
    (fun _ _ => Ok tx)
    (fun _ _ => Ok tx)
    (Ok 2)
    (Ok 1)
    (fun _ _ _ => Ok ["0xc1f3"])
    (fun _ _ => Ok tx)
    (fun _ _ => Ok tx)
    (Ok 10)
    sample_parseLog.

Definition sample_signer : Signer := mkSigner (Ok "0xA11CE").

Definition sample_provider : Provider := mkProvider (fun _ => Ok tt) (Ok sample_signer).

(** An environment with an injected wallet that grants every request. *)
Definition sample_browser : Browser :=
  mkBrowser
    (Ok (Some (mkEthereum (fun _ => Ok tt))))
    (fun _ => Ok sample_provider)
    (fun _ _ => Ok (sample_contract (sample_tx []))).

(** Connection State after a successful initialization. *)
Definition bound_world (tx : Tx) : World :=
  mkWorld (mkConn (Some sample_provider) (Some sample_signer) (Some (sample_contract tx))) [].

(** Connection State when no wallet was found. *)
Definition all_absent : ConnState := mkConn None None None.

Definition absent_world : World := mkWorld all_absent [].

(** ** Vocabulary of the further properties *)

(** A computation that ends in a value from every world. *)
Definition never_raises {A} (m : M A) : Prop :=
  forall w e, fst (m w) <> Throw e.

(** Effects that reach the chain: a contract method call or the wait for
    a confirmation. *)
Definition is_chain_effect (ev : Effect) : bool :=
  match ev with
  | ContractCall _ _ | TxWait _ => true
  | _ => false
  end.

Definition is_contract_call (ev : Effect) : bool :=
  match ev with
  | ContractCall _ _ => true
  | _ => false
  end.

Definition is_tx_wait (ev : Effect) : bool :=
  match ev with
  | TxWait _ => true
  | _ => false
  end.

(** How many effects of a kind a run added. *)
Definition count (kind : Effect -> bool) (evs : list Effect) : nat :=
  length (filter kind evs).

(** A run from [w] that adds at most one contract call and at most one
    confirmation wait, and leaves Connection State alone. *)
Definition single_attempt {A} (m : M A) : Prop :=
  forall w, exists evs,
    snd (m w) = after w evs
    /\ (count is_contract_call evs <= 1)%nat
    /\ (count is_tx_wait evs <= 1)%nat.

(** A run from [w] that adds console output only. *)
Definition off_chain {A} (m : M A) (w : World) : Prop :=
  exists evs,
    snd (m w) = after w evs /\ forallb (fun ev => negb (is_chain_effect ev)) evs = true.

(** The TypeErrors of a member access on the [undefined] result of an
    optional-chained call. *)
Definition no_wait : JsError :=
  TypeError "Cannot read properties of undefined (reading 'wait')".

Definition no_hash : JsError :=
  TypeError "Cannot read properties of undefined (reading 'hash')".

(** ** Further sample collaborators *)

Definition revert_error : JsError := Rejected "CALL_EXCEPTION" "execution reverted".

Definition timeout_error : JsError := Rejected "NETWORK_ERROR" "timeout".

(** A handle every method of which reverts. *)
Definition reverting_contract : Contract :=
  mkContract
    (fun _ _ => Throw revert_error)
    (fun _ _ => Throw revert_error)
    (fun _ _ => Throw revert_error)
    (fun _ => Throw revert_error)
    (fun _ _ => Throw revert_error)
    (fun _ _ => Throw revert_error)
    (fun _ _ => Throw revert_error)
    (Throw revert_error)
    (Throw revert_error)
    (fun _ _ _ => Throw revert_error)
    (fun _ _ => Throw revert_error)
    (fun _ _ => Throw revert_error)
    (Throw revert_error)
    sample_parseLog.

Definition reverting_world : World :=
  mkWorld (mkConn (Some sample_provider) (Some sample_signer) (Some reverting_contract)) [].


(** A transaction whose confirmation never arrives. *)
Definition dropped_tx : Tx := mkTx "0xdead" (Throw timeout_error).

(** A decoder for which every entry is a [TokenMinted] event without
    arguments. *)
Definition bare_contract (tx : Tx) : Contract :=
  mkContract
    (fun _ _ => Ok tx)
    (fun start _ => Ok ([start; start + 1; start + 2], ["QmA"]))
    (fun start _ => Ok ([start], ["QmC"; "QmD"]))
    (fun _ => Ok [])
    (fun _ _ => Ok tx)
    (fun _ _ => Ok tx)
    (fun _ _ => Ok tx)
    (Ok 0)
    (Ok 0)
    (fun _ _ _ => Ok [])
    (fun _ _ => Ok tx)
    (fun _ _ => Ok tx)
    (Ok 0)
    (fun _ => Ok (Some (mkLogDescription "TokenMinted" []))).

(** Connection State bound to a given handle. *)
Definition bound_world_of (h : Contract) : World :=
  mkWorld (mkConn (Some sample_provider) (Some sample_signer) (Some h)) [].

(** An environment whose wallet refuses the account request. *)
Definition rejecting_browser : Browser :=
  mkBrowser
    (Ok (Some (mkEthereum (fun _ => Throw (Rejected "ACTION_REJECTED" "user rejected")))))
    (fun _ => Ok sample_provider)
    (fun _ _ => Ok (sample_contract (sample_tx []))).

(** * Properties *)

(** ** Running a computation *)

Section Running.
Context {A B : Type}.

Lemma bind_ok (m : M A) (k : A -> M B) w a w' :
  m w = (Ok a, w') -> bind m k w = k a w'.
Proof. intros E. unfold bind. now rewrite E. Qed.

Lemma bind_throw (m : M A) (k : A -> M B) w e w' :
  m w = (Throw e, w') -> bind m k w = (Throw e, w').
Proof. intros E. unfold bind. now rewrite E. Qed.

Lemma try_catch_ok (body : M A) handler w a w' :
  body w = (Ok a, w') -> try_catch body handler w = (Ok a, w').
Proof. intros E. unfold try_catch. now rewrite E. Qed.

Lemma try_catch_throw (body : M A) handler w e w' :
  body w = (Throw e, w') -> try_catch body handler w = handler e w'.
Proof. intros E. unfold try_catch. now rewrite E. Qed.
End Running.

Lemma after_after w l1 l2 : after (after w l1) l2 = after w (l1 ++ l2).
Proof. unfold after. simpl. now rewrite <- app_assoc. Qed.

Lemma after_nil w : after w [] = w.
Proof. destruct w. unfold after. simpl. now rewrite app_nil_r. Qed.

Lemma conn_after w l : conn (after w l) = conn w.
Proof. reflexivity. Qed.

Lemma contract_call_absent {A} method args (response : Contract -> outcome A) w :
  contract (conn w) = None ->
  contract_call method args response w = (Ok None, w).
Proof.
  intros E. unfold contract_call, bind, get_conn. now rewrite E.
Qed.

Lemma contract_call_bound {A} method args (response : Contract -> outcome A) w h :
  contract (conn w) = Some h ->
  contract_call method args response w =
    (match response h with Ok a => Ok (Some a) | Throw e => Throw e end,
     after w [ContractCall method args]).
Proof.
  intros E. unfold contract_call, bind, get_conn, external, ret, after.
  rewrite E. now destruct (response h).
Qed.

Lemma tx_wait_call_some tx w :
  tx_wait_call (Some tx) w = (tx_wait tx, after w [TxWait (tx_hash tx)]).
Proof. reflexivity. Qed.

(** ** Numbers *)

(** Up to 2^53 in magnitude every integer is a double: [Number] is exact. *)
Lemma Number_exact n : Z.abs n <= 2 ^ 53 -> Number (VBigInt n) = Num n.
Proof.
  intros Hn. unfold Number, round_double. cbv zeta.
  destruct (Z.ltb_spec (Z.abs n) (2 ^ 53)) as [Hlt|Hge]; [reflexivity|].
  change (2 ^ 53) with 9007199254740992 in *.
  assert (Hcases : n = 9007199254740992 \/ n = - 9007199254740992) by lia.
  destruct Hcases as [-> | ->]; vm_compute; reflexivity.
Qed.

Lemma js_add_exact a b : Z.abs (a + b) <= 2 ^ 53 -> js_add a b = Num (a + b).
Proof. exact (Number_exact (a + b)). Qed.

(** [Number] of a bigint is a number or an infinity, never [NaN]. *)
Lemma Number_bigint_not_NaN n : Number (VBigInt n) <> NaN.
Proof.
  unfold Number, round_double. cbv zeta.
  destruct (Z.abs n <? 2 ^ 53); [discriminate|].
  destruct (2 ^ 1024 <=? _); [destruct (n <? 0)|]; discriminate.
Qed.

(** ** Handlers and optional-chained calls *)

Lemma handler_default {A} msg e (a : A) w :
  (console_error msg e ;; ret a) w = (Ok a, after w [ConsoleError msg (Some e)]).
Proof. reflexivity. Qed.

Lemma handler_rethrow {A} msg e w :
  (console_error msg e ;; throw e) w
    = (@Throw A e, after w [ConsoleError msg (Some e)]).
Proof. reflexivity. Qed.

(** An expression that may throw, followed by the rest of a body. *)
Lemma bind_eval {A B} (r : outcome A) (k : A -> M B) w :
  (x <- eval r ;; k x) w = match r with Ok a => k a w | Throw e => (Throw e, w) end.
Proof. unfold bind, eval. now destruct r. Qed.

(** An optional-chained call followed by the rest of a [try] body. *)
Lemma read_body_cases {A B} (method : string) args (response : Contract -> outcome A)
    (k : option A -> M B) w :
  (x <- contract_call method args response ;; k x) w =
    match contract (conn w) with
    | None => k None w
    | Some h =>
        match response h with
        | Ok a => k (Some a) (after w [ContractCall method args])
        | Throw e => (Throw e, after w [ContractCall method args])
        end
    end.
Proof.
  unfold bind.
  destruct (contract (conn w)) as [h|] eqn:Hc.
  - rewrite (contract_call_bound _ _ _ _ _ Hc). now destruct (response h).
  - now rewrite (contract_call_absent _ _ _ _ Hc).
Qed.

(** ** Event Extractor *)

Lemma skipped_not_decodes h eventName log :
  skipped h eventName log -> ~ decodes_to h eventName log.
Proof.
  intros (r & Hr & Hname) (ev & Hev & Hev_name).
  rewrite Hev in Hr. injection Hr as <-.
  simpl in Hname. rewrite Hev_name, String.eqb_refl in Hname. discriminate.
Qed.

(** The loop leaves the world as it was; how it ends is [first_event]. *)
Lemma scan_logs_first_event eventName logs w :
  scan_logs eventName logs w = (first_event (contract (conn w)) eventName logs, w).
Proof.
  induction logs as [|l logs IH]; simpl; [reflexivity|].
  unfold bind, get_conn, eval.
  destruct (parse_log (contract (conn w)) l) as [event|e]; [|reflexivity].
  destruct (name_is event eventName); [reflexivity | exact IH].
Qed.

(** The scan passes over the logs it skips and stops at the first log
    that decodes to the wanted event. *)
Lemma first_event_at h eventName pre log post ev :
  (forall l, In l pre -> skipped h eventName l) ->
  parse_log h log = Ok (Some ev) ->
  ev_name ev = eventName ->
  first_event h eventName (pre ++ log :: post) = Ok (Some ev).
Proof.
  intros Hpre Hlog Hname. induction pre as [|l pre IH]; simpl.
  - rewrite Hlog. simpl. now rewrite Hname, String.eqb_refl.
  - destruct (Hpre l (or_introl eq_refl)) as (r & -> & ->).
    apply IH. intros l' Hin. apply Hpre. now right.
Qed.

(** It stops as well at the first log whose decoding raises. *)
Lemma first_event_raise h eventName pre log post e :
  (forall l, In l pre -> skipped h eventName l) ->
  parse_log h log = Throw e ->
  first_event h eventName (pre ++ log :: post) = Throw e.
Proof.
  intros Hpre Hlog. induction pre as [|l pre IH]; simpl.
  - now rewrite Hlog.
  - destruct (Hpre l (or_introl eq_refl)) as (r & -> & ->).
    apply IH. intros l' Hin. apply Hpre. now right.
Qed.

Lemma first_event_none h eventName logs :
  (forall l, In l logs -> skipped h eventName l) ->
  first_event h eventName logs = Ok None.
Proof.
  induction logs as [|l logs IH]; intros Hall; simpl; [reflexivity|].
  destruct (Hall l (or_introl eq_refl)) as (r & -> & ->).
  apply IH. intros l' Hin. apply Hall. now right.
Qed.

(** An event returned by the scan is the decoding of a log before which
    every log was skipped. *)
Lemma first_event_some h eventName logs ev :
  first_event h eventName logs = Ok (Some ev) ->
  exists pre log post,
    logs = (pre ++ log :: post)%list
    /\ (forall l, In l pre -> skipped h eventName l)
    /\ parse_log h log = Ok (Some ev)
    /\ ev_name ev = eventName.
Proof.
  induction logs as [|l logs IH]; simpl; [discriminate|].
  destruct (parse_log h l) as [event|e] eqn:Hl; [|discriminate].
  destruct (name_is event eventName) eqn:E.
  - intros [= ->]. exists [], l, logs. split; [reflexivity|].
    split; [intros l' []|]. split; [exact Hl|].
    simpl in E. now apply String.eqb_eq.
  - intros Hev. destruct (IH Hev) as (pre & log & post & -> & Hpre & Hlog & Hname).
    exists (l :: pre), log, post. split; [reflexivity|].
    split; [|split; assumption].
    intros l' [<- | Hin]; [now exists event | now apply Hpre].
Qed.

(** Without a log that decodes to the wanted event the scan returns no
    event: it ends in [null] or in an exception. *)
Lemma first_event_no_match h eventName logs :
  (forall l, In l logs -> ~ decodes_to h eventName l) ->
  forall ev, first_event h eventName logs <> Ok (Some ev).
Proof.
  intros Hall ev Hev.
  destruct (first_event_some _ _ _ _ Hev) as (pre & log & post & -> & _ & Hlog & Hname).
  apply (Hall log); [apply in_elt | now exists ev].
Qed.

(** With the handle absent nothing is decoded. *)
Lemma first_event_absent eventName logs : first_event None eventName logs = Ok None.
Proof. induction logs as [|l logs IH]; simpl; [reflexivity | exact IH]. Qed.

Lemma getEvent_scan tx eventName receipt w :
  tx_wait tx = Ok receipt ->
  getEvent (Some tx) eventName w =
    (first_event (contract (conn w)) eventName (logs_of receipt),
     after w [TxWait (tx_hash tx)]).
Proof.
  intros E. unfold getEvent.
  erewrite bind_ok by (rewrite tx_wait_call_some, E; reflexivity).
  destruct receipt as [r|]; [|reflexivity].
  unfold logs_of. destruct (rc_logs r); [|reflexivity].
  now rewrite scan_logs_first_event.
Qed.

(** C4, amended. [getEvent] awaits the confirmation receipt and scans its
    logs in receipt order. It returns the first decoded event whose name
    equals [eventName], provided the decoding of every earlier log returns
    ([null] or an event of another name): those logs are skipped without
    any effect. It returns [null], without raising, when the decoding of
    every log returns and none matches, in particular when the log list
    is empty, the receipt has no logs or the receipt is null. When the
    interface's [parseLog] throws on a log the scan reaches, [getEvent]
    raises that error. *)
Theorem getEvent_first_matching_log w tx eventName receipt :
  tx_wait tx = Ok receipt ->
  let h := contract (conn w) in
  let w' := after w [TxWait (tx_hash tx)] in
  (forall (pre : list Log) log post ev,
      logs_of receipt = (pre ++ log :: post)%list ->
      (forall l, In l pre -> skipped h eventName l) ->
      parse_log h log = Ok (Some ev) ->
      ev_name ev = eventName ->
      getEvent (Some tx) eventName w = (Ok (Some ev), w'))
  /\ ((forall l, In l (logs_of receipt) -> skipped h eventName l) ->
      getEvent (Some tx) eventName w = (Ok None, w'))
  /\ (logs_of receipt = [] ->
      getEvent (Some tx) eventName w = (Ok None, w'))
  /\ (forall (pre : list Log) log post e,
      logs_of receipt = (pre ++ log :: post)%list ->
      (forall l, In l pre -> skipped h eventName l) ->
      parse_log h log = Throw e ->
      getEvent (Some tx) eventName w = (Throw e, w')).
Proof.
  intros Hwait h w'.
  rewrite (getEvent_scan _ _ _ _ Hwait). fold w' h.
  split; [|split; [|split]].
  - intros pre log post ev -> Hpre Hlog Hname.
    now rewrite (first_event_at h eventName pre log post ev).
  - intros Hall. now rewrite first_event_none.
  - intros ->. reflexivity.
  - intros pre log post e -> Hpre Hlog.
    now rewrite (first_event_raise h eventName pre log post e).
Qed.

(** The sample decoder skips the entries [other] and [shared] when the
    event wanted is [TokenMinted]. *)
Lemma sample_skipped tx l :
  In l [sample_log "other"; sample_log "shared"] ->
  skipped (Some (sample_contract tx)) "TokenMinted" l.
Proof.
  intros [<- | [<- | []]]; eexists; split; reflexivity.
Qed.

Lemma getEvent_first_matching_log_witness :
  getEvent (Some (sample_tx [sample_log "other"; sample_log "shared";
                             sample_log "minted 7"; sample_log "minted 5"]))
           "TokenMinted" (bound_world (sample_tx []))
    = (Ok (Some (mkLogDescription "TokenMinted" [VBigInt 7; VStr "0xA11CE"])),
       after (bound_world (sample_tx [])) [TxWait "0xabc"])
  /\ getEvent (Some (sample_tx [sample_log "other"; sample_log "shared"]))
              "TokenMinted" (bound_world (sample_tx []))
    = (Ok None, after (bound_world (sample_tx [])) [TxWait "0xabc"])
  /\ getEvent (Some (sample_tx [])) "TokenMinted" (bound_world (sample_tx []))
    = (Ok None, after (bound_world (sample_tx [])) [TxWait "0xabc"])
  /\ getEvent (Some (sample_tx [sample_log "other"; sample_log "shared";
                                topicless_log; sample_log "minted 7"]))
              "TokenMinted" (bound_world (sample_tx []))
    = (Throw (TypeError "Cannot read properties of undefined (reading 'indexOf')"),
       after (bound_world (sample_tx [])) [TxWait "0xabc"]).
Proof.
  split; [|split; [|split]].
  - exact (proj1 (getEvent_first_matching_log (bound_world (sample_tx []))
                    (sample_tx [sample_log "other"; sample_log "shared";
                                sample_log "minted 7"; sample_log "minted 5"])
                    "TokenMinted" _ eq_refl)
                 [sample_log "other"; sample_log "shared"]
                 (sample_log "minted 7") [sample_log "minted 5"] _
                 eq_refl (sample_skipped (sample_tx [])) eq_refl eq_refl).
  - exact (proj1 (proj2 (getEvent_first_matching_log (bound_world (sample_tx []))
                    (sample_tx [sample_log "other"; sample_log "shared"])
                    "TokenMinted" _ eq_refl)) (sample_skipped (sample_tx []))).
  - exact (proj1 (proj2 (proj2 (getEvent_first_matching_log (bound_world (sample_tx []))
                    (sample_tx []) "TokenMinted" _ eq_refl))) eq_refl).
  - exact (proj2 (proj2 (proj2 (getEvent_first_matching_log (bound_world (sample_tx []))
                    (sample_tx [sample_log "other"; sample_log "shared";
                                topicless_log; sample_log "minted 7"])
                    "TokenMinted" _ eq_refl)))
                 [sample_log "other"; sample_log "shared"]
                 topicless_log [sample_log "minted 7"] _
                 eq_refl (sample_skipped (sample_tx [])) eq_refl).
Defined.

(** C4 as stated fails: the only log of the receipt below decodes to no
    event at all, let alone a matching one, yet it is not skipped and the
    result is not [null]: the decoder throws on it and [getEvent] raises. *)
Lemma getEvent_raises_on_undecodable_log :
  (forall l, In l [topicless_log] ->
     ~ decodes_to (Some (sample_contract (sample_tx []))) "TokenMinted" l)
  /\ fst (getEvent (Some (sample_tx [topicless_log])) "TokenMinted"
                   (bound_world (sample_tx [])))
     = Throw (TypeError "Cannot read properties of undefined (reading 'indexOf')")
  /\ fst (getEvent (Some (sample_tx [topicless_log])) "TokenMinted"
                   (bound_world (sample_tx [])))
     <> Ok None.
Proof.
  split; [|split].
  - intros l [<- | []] (ev & Hev & _). discriminate.
  - reflexivity.
  - discriminate.
Qed.

(** C10. With the module-level contract handle absent, [getEvent] returns
    [null] for every transaction handle whose confirmation receipt arrives
    and for every event name, however many logs the receipt holds: the
    optional-chained decode of each log yields no event. *)
Theorem getEvent_without_contract w tx eventName receipt :
  contract (conn w) = None ->
  tx_wait tx = Ok receipt ->
  getEvent (Some tx) eventName w = (Ok None, after w [TxWait (tx_hash tx)]).
Proof.
  intros Hnone Hwait.
  rewrite (getEvent_scan _ _ _ _ Hwait), Hnone.
  now rewrite first_event_absent.
Qed.

Lemma getEvent_without_contract_witness :
  getEvent (Some (sample_tx [sample_log "minted 7"; sample_log "minted 5"]))
           "TokenMinted" absent_world
    = (Ok None, after absent_world [TxWait "0xabc"]).
Proof.
  exact (getEvent_without_contract absent_world
           (sample_tx [sample_log "minted 7"; sample_log "minted 5"])
           "TokenMinted" _ eq_refl eq_refl).
Defined.

(** ** Minting *)

(** Every way [mintToken] can end. *)
Lemma mintToken_cases cid keys w :
  let call := ContractCall "mintToken" [AStr cid; ABytesList keys] in
  let logged e := ConsoleError "Error in contract.mintToken:" (Some e) in
  mintToken cid keys w =
    match contract (conn w) with
    | None =>
        (Throw (TypeError "Cannot read properties of undefined (reading 'wait')"),
         after w [logged (TypeError "Cannot read properties of undefined (reading 'wait')")])
    | Some h =>
        match c_mintToken h cid keys with
        | Throw e => (Throw e, after w [call; logged e])
        | Ok tx =>
            match tx_wait tx with
            | Throw e => (Throw e, after w [call; TxWait (tx_hash tx); logged e])
            | Ok receipt =>
                match first_event (Some h) "TokenMinted" (logs_of receipt) with
                | Throw e => (Throw e, after w [call; TxWait (tx_hash tx); logged e])
                | Ok None =>
                    (Throw (Error "TokenMinted event not found."),
                     after w [call; TxWait (tx_hash tx);
                              logged (Error "TokenMinted event not found.")])
                | Ok (Some ev) =>
                    match result_get (ev_args ev) 0 with
                    | Throw e => (Throw e, after w [call; TxWait (tx_hash tx); logged e])
                    | Ok first_arg =>
                        (Ok (mkTokenDetails (Number first_arg) (Some cid)),
                         after w [call; TxWait (tx_hash tx)])
                    end
                end
            end
        end
    end.
Proof.
  cbv zeta. unfold mintToken, try_catch.
  rewrite read_body_cases.
  destruct (contract (conn w)) as [h|] eqn:Hc; [|reflexivity].
  destruct (c_mintToken h cid keys) as [tx|e].
  - unfold bind at 1.
    destruct (tx_wait tx) as [receipt|e] eqn:Hw.
    + rewrite (getEvent_scan _ _ _ _ Hw), !conn_after, Hc.
      destruct (first_event (Some h) "TokenMinted" (logs_of receipt)) as [[ev|]|e].
      * rewrite bind_eval.
        destruct (result_get (ev_args ev) 0) as [first_arg|e].
        -- unfold ret. now rewrite after_after.
        -- rewrite handler_rethrow, !after_after. reflexivity.
      * unfold throw at 1. rewrite handler_rethrow, !after_after. reflexivity.
      * rewrite handler_rethrow, !after_after. reflexivity.
    + unfold getEvent, bind at 1. rewrite tx_wait_call_some, Hw.
      rewrite handler_rethrow, !after_after. reflexivity.
  - rewrite handler_rethrow, after_after. reflexivity.
Qed.

(** C1, amended. When the transaction confirms, the decoding of every log
    before the first [TokenMinted] log of the receipt returns (to [null]
    or to another event), and that first log, in receipt order, that
    decodes against the bound contract's interface as a [TokenMinted]
    event has as first argument an integer [n] of magnitude at most 2^53
    (so that [Number] keeps it), [mintToken(cidHash, keys)] returns
    [{tokenId: n, cidHash: cidHash}]. *)
Theorem mintToken_first_minted_event w h cid keys tx receipt pre log post ev n :
  contract (conn w) = Some h ->
  c_mintToken h cid keys = Ok tx ->
  tx_wait tx = Ok receipt ->
  logs_of receipt = (pre ++ log :: post)%list ->
  (forall l, In l pre -> skipped (Some h) "TokenMinted" l) ->
  c_parseLog h log = Ok (Some ev) ->
  ev_name ev = "TokenMinted" ->
  nth_error (ev_args ev) 0 = Some (VBigInt n) ->
  Z.abs n <= 2 ^ 53 ->
  mintToken cid keys w =
    (Ok (mkTokenDetails (Num n) (Some cid)),
     after w [ContractCall "mintToken" [AStr cid; ABytesList keys];
              TxWait (tx_hash tx)]).
Proof.
  intros Hc Hmint Hwait Hlogs Hpre Hlog Hname Harg Hn.
  pose proof (mintToken_cases cid keys w) as Hrun. cbv zeta in Hrun.
  rewrite Hrun, Hc, Hmint, Hwait, Hlogs. clear Hrun.
  rewrite (first_event_at (Some h) _ pre log post ev Hpre Hlog Hname).
  unfold result_get. rewrite Harg. now rewrite (Number_exact n Hn).
Qed.

(** The end-to-end scenario of the specification:
    [mintToken("Qm123", [bytes])] on a receipt whose log decodes to
    [TokenMinted(args=[7, ...])] yields [{tokenId: 7, cidHash: "Qm123"}]. *)
Lemma mintToken_first_minted_event_witness :
  mintToken "Qm123" [[x2a; x00]]
            (bound_world (sample_tx [sample_log "other"; sample_log "shared";
                                     sample_log "minted 7"]))
    = (Ok (mkTokenDetails (Num 7) (Some "Qm123")),
       after (bound_world (sample_tx [sample_log "other"; sample_log "shared";
                                      sample_log "minted 7"]))
             [ContractCall "mintToken" [AStr "Qm123"; ABytesList [[x2a; x00]]];
              TxWait "0xabc"]).
Proof.
  refine (mintToken_first_minted_event
            (bound_world (sample_tx [sample_log "other"; sample_log "shared";
                                     sample_log "minted 7"]))
            _ "Qm123" [[x2a; x00]] _ _
            [sample_log "other"; sample_log "shared"] (sample_log "minted 7") [] _ 7
            eq_refl eq_refl eq_refl eq_refl (sample_skipped _) eq_refl eq_refl eq_refl _).
  vm_compute. discriminate.
Defined.

(** C1 as stated fails, in three ways. Each receipt below holds a log that
    decodes to a [TokenMinted] event with the first argument named, and
    the token with that identifier is not what [mintToken] returns: an
    earlier [TokenMinted] log wins (7 asked, 5 returned); [Number] rounds
    the identifier 2^53+1 to 2^53; and a log without topics, met first,
    makes the decoder throw, so that [mintToken] raises. *)
Lemma mintToken_minted_log_not_returned :
  (let tx := sample_tx [sample_log "minted 5"; sample_log "minted 7"] in
   c_mintToken (sample_contract tx) "Qm123" [] = Ok tx
   /\ tx_wait tx
        = Ok (Some (mkReceipt (Some [sample_log "minted 5"; sample_log "minted 7"])))
   /\ holds_minted (sample_contract tx)
        (Some (mkReceipt (Some [sample_log "minted 5"; sample_log "minted 7"]))) 7
   /\ fst (mintToken "Qm123" [] (bound_world tx))
        = Ok (mkTokenDetails (Num 5) (Some "Qm123"))
   /\ fst (mintToken "Qm123" [] (bound_world tx))
        <> Ok (mkTokenDetails (Num 7) (Some "Qm123")))
  /\ (let tx := sample_tx [sample_log "minted 2^53+1"] in
      c_mintToken (sample_contract tx) "Qm123" [] = Ok tx
      /\ tx_wait tx = Ok (Some (mkReceipt (Some [sample_log "minted 2^53+1"])))
      /\ holds_minted (sample_contract tx)
           (Some (mkReceipt (Some [sample_log "minted 2^53+1"]))) (2 ^ 53 + 1)
      /\ fst (mintToken "Qm123" [] (bound_world tx))
           = Ok (mkTokenDetails (Num (2 ^ 53)) (Some "Qm123"))
      /\ fst (mintToken "Qm123" [] (bound_world tx))
           <> Ok (mkTokenDetails (Num (2 ^ 53 + 1)) (Some "Qm123")))
  /\ (let tx := sample_tx [topicless_log; sample_log "minted 7"] in
      c_mintToken (sample_contract tx) "Qm123" [] = Ok tx
      /\ tx_wait tx
           = Ok (Some (mkReceipt (Some [topicless_log; sample_log "minted 7"])))
      /\ holds_minted (sample_contract tx)
           (Some (mkReceipt (Some [topicless_log; sample_log "minted 7"]))) 7
      /\ fst (mintToken "Qm123" [] (bound_world tx))
           = Throw (TypeError "Cannot read properties of undefined (reading 'indexOf')")).
Proof.
  cbv zeta. split; [|split].
  - split; [reflexivity|]. split; [reflexivity|]. split; [|split].
    + exists (sample_log "minted 7"),
        (mkLogDescription "TokenMinted" [VBigInt 7; VStr "0xA11CE"]).
      split; [simpl; right; now left|]. repeat split.
    + vm_compute. reflexivity.
    + vm_compute. discriminate.
  - split; [reflexivity|]. split; [reflexivity|]. split; [|split].
    + exists (sample_log "minted 2^53+1"),
        (mkLogDescription "TokenMinted" [VBigInt (2 ^ 53 + 1); VStr "0xA11CE"]).
      split; [simpl; now left|]. repeat split.
    + vm_compute. reflexivity.
    + vm_compute. discriminate.
  - split; [reflexivity|]. split; [reflexivity|]. split.
    + exists (sample_log "minted 7"),
        (mkLogDescription "TokenMinted" [VBigInt 7; VStr "0xA11CE"]).
      split; [simpl; right; now left|]. repeat split.
    + vm_compute. reflexivity.
Qed.

(** C3, amended. When the transaction confirms but no log of its receipt
    decodes to a [TokenMinted] event, [mintToken] returns no TokenDetails:
    it raises. When, besides, the decoding of every log returns, the error
    raised, after being logged, is [TokenMinted event not found.]; when
    the decoder throws on a log, it is the decoder's error instead. *)
Theorem mintToken_event_not_found w h cid keys tx receipt :
  contract (conn w) = Some h ->
  c_mintToken h cid keys = Ok tx ->
  tx_wait tx = Ok receipt ->
  (forall l, In l (logs_of receipt) -> ~ decodes_to (Some h) "TokenMinted" l) ->
  (forall details, fst (mintToken cid keys w) <> Ok details)
  /\ ((forall l, In l (logs_of receipt) -> exists r, c_parseLog h l = Ok r) ->
      mintToken cid keys w =
        (Throw (Error "TokenMinted event not found."),
         after w [ContractCall "mintToken" [AStr cid; ABytesList keys];
                  TxWait (tx_hash tx);
                  ConsoleError "Error in contract.mintToken:"
                               (Some (Error "TokenMinted event not found."))]))
  /\ (forall pre log post e,
        logs_of receipt = (pre ++ log :: post)%list ->
        (forall l, In l pre -> exists r, c_parseLog h l = Ok r) ->
        c_parseLog h log = Throw e ->
        mintToken cid keys w =
          (Throw e,
           after w [ContractCall "mintToken" [AStr cid; ABytesList keys];
                    TxWait (tx_hash tx);
                    ConsoleError "Error in contract.mintToken:" (Some e)])).
Proof.
  intros Hc Hmint Hwait Hall.
  assert (Hskip : forall l, In l (logs_of receipt) ->
            (exists r, c_parseLog h l = Ok r) -> skipped (Some h) "TokenMinted" l).
  { intros l Hin (r & Hr). exists r. split; [exact Hr|].
    destruct (name_is r "TokenMinted") eqn:E; [|reflexivity].
    exfalso. apply (Hall l Hin).
    destruct r as [ev|]; [|discriminate].
    exists ev. split; [exact Hr | now apply String.eqb_eq]. }
  pose proof (mintToken_cases cid keys w) as Hrun. cbv zeta in Hrun.
  rewrite Hrun, Hc, Hmint, Hwait. clear Hrun.
  split; [|split].
  - intros details.
    pose proof (first_event_no_match (Some h) "TokenMinted" _ Hall) as Hno.
    destruct (first_event (Some h) "TokenMinted" (logs_of receipt)) as [[ev|]|e];
      [now elim (Hno ev) | discriminate | discriminate].
  - intros Hdec. rewrite first_event_none; [reflexivity|].
    intros l Hin. apply Hskip; [exact Hin | now apply Hdec].
  - intros pre log post e Hlogs Hpre Hlog.
    rewrite Hlogs in *.
    rewrite (first_event_raise (Some h) "TokenMinted" pre log post e); [reflexivity| |exact Hlog].
    intros l Hin. apply Hskip; [apply in_or_app; now left | now apply Hpre].
Qed.

Lemma mintToken_event_not_found_witness :
  (forall details,
     fst (mintToken "Qm123" []
            (bound_world (sample_tx [sample_log "other"; sample_log "shared"])))
       <> Ok details)
  /\ mintToken "Qm123" [] (bound_world (sample_tx [sample_log "other"; sample_log "shared"]))
     = (Throw (Error "TokenMinted event not found."),
        after (bound_world (sample_tx [sample_log "other"; sample_log "shared"]))
              [ContractCall "mintToken" [AStr "Qm123"; ABytesList []];
               TxWait "0xabc";
               ConsoleError "Error in contract.mintToken:"
                            (Some (Error "TokenMinted event not found."))]).
Proof.
  assert (Hno : forall l, In l [sample_log "other"; sample_log "shared"] ->
            ~ decodes_to
                (Some (sample_contract (sample_tx [sample_log "other"; sample_log "shared"])))
                "TokenMinted" l).
  { intros l Hin. apply skipped_not_decodes. now apply sample_skipped. }
  pose proof (mintToken_event_not_found
                (bound_world (sample_tx [sample_log "other"; sample_log "shared"]))
                _ "Qm123" [] _ _ eq_refl eq_refl eq_refl Hno) as (Hnone & Hfound & _).
  split; [exact Hnone|].
  apply Hfound.
  intros l [<- | [<- | []]]; eexists; reflexivity.
Defined.

(** C3 as stated fails: the receipt below has no log that decodes to a
    [TokenMinted] event, and the error [mintToken] raises is not
    [TokenMinted event not found.] but the TypeError of the decoder. *)
Lemma mintToken_raises_decoder_error :
  let tx := sample_tx [topicless_log] in
  c_mintToken (sample_contract tx) "Qm123" [] = Ok tx
  /\ tx_wait tx = Ok (Some (mkReceipt (Some [topicless_log])))
  /\ (forall l, In l [topicless_log] ->
        ~ decodes_to (Some (sample_contract tx)) "TokenMinted" l)
  /\ fst (mintToken "Qm123" [] (bound_world tx))
       = Throw (TypeError "Cannot read properties of undefined (reading 'indexOf')")
  /\ fst (mintToken "Qm123" [] (bound_world tx))
       <> Throw (Error "TokenMinted event not found.").
Proof.
  cbv zeta. split; [reflexivity|]. split; [reflexivity|]. split; [|split].
  - intros l [<- | []] (ev & Hev & _). discriminate.
  - vm_compute. reflexivity.
  - vm_compute. discriminate.
Qed.
(** ** Sharing *)

(** C2, amended. [shareToken] called with an empty recipient list does not
    invoke the contract's [shareToken] method: the error
    [Recipient list cannot be empty.] is raised before any call, caught by
    the function's own handler, logged, and the call returns [false]. *)
Theorem shareToken_empty_recipients w to id :
  js_length to = 0%nat ->
  shareToken to id w =
    (Ok false,
     after w [ConsoleError "Error contract.shareToken:"
                           (Some (Error "Recipient list cannot be empty."))]).
Proof.
  intros Hlen. unfold shareToken. rewrite Hlen. reflexivity.
Qed.

Lemma shareToken_empty_recipients_witness :
  shareToken (RList []) 7 (bound_world (sample_tx []))
    = (Ok false,
       after (bound_world (sample_tx []))
             [ConsoleError "Error contract.shareToken:"
                           (Some (Error "Recipient list cannot be empty."))]).
Proof.
  exact (shareToken_empty_recipients (bound_world (sample_tx [])) (RList []) 7 eq_refl).
Defined.

(** C2 as stated fails: on an empty recipient list the caller receives the
    value [false], not an exception. *)
Lemma shareToken_empty_list_returns_false :
  fst (shareToken (RList []) 7 (bound_world (sample_tx []))) = Ok false
  /\ (forall e, fst (shareToken (RList []) 7 (bound_world (sample_tx []))) <> Throw e).
Proof.
  split; [reflexivity | intros e; vm_compute; discriminate].
Qed.


(** ** Range queries *)

(** Zipping from index [k] on: with a cid hash for every token identifier
    the map completes, and pairs position by position. *)
Lemma pair_from k ids cids :
  (k + length ids <= length cids)%nat ->
  exists tokens,
    map_index
      (fun tokenId index =>
         match result_get cids index with
         | Ok cid => Ok (mkTokenDetails (Num tokenId) (Some cid))
         | Throw e => Throw e
         end) k ids = Ok tokens
    /\ length tokens = length ids
    /\ forall i,
        nth_error tokens i =
          match nth_error ids i, nth_error cids (k + i) with
          | Some id, Some cid => Some (mkTokenDetails (Num id) (Some cid))
          | _, _ => None
          end.
Proof.
  revert k. induction ids as [|id ids IH]; intros k Hlen; simpl in *.
  - exists []. repeat split. intros i. now destruct i.
  - unfold result_get at 1.
    destruct (nth_error cids k) as [cid|] eqn:Hk.
    2:{ apply nth_error_None in Hk. lia. }
    destruct (IH (S k)) as (tokens & -> & Hlength & Hnth); [lia|].
    exists (mkTokenDetails (Num id) (Some cid) :: tokens).
    split; [reflexivity|]. split; [simpl; now rewrite Hlength|].
    intros [|i]; simpl.
    + now rewrite Nat.add_0_r, Hk.
    + rewrite Hnth. now rewrite Nat.add_succ_r.
Qed.

(** With fewer cid hashes than token identifiers the map ends in the
    RangeError of the first missing hash. *)
Lemma pair_from_short k ids cids :
  (k <= length cids < k + length ids)%nat ->
  map_index
    (fun tokenId index =>
       match result_get cids index with
       | Ok cid => Ok (mkTokenDetails (Num tokenId) (Some cid))
       | Throw e => Throw e
       end) k ids = Throw (RangeError "out of result range").
Proof.
  revert k. induction ids as [|id ids IH]; intros k Hlen; simpl in *; [lia|].
  unfold result_get at 1.
  destruct (nth_error cids k) as [cid|] eqn:Hk; [|reflexivity].
  assert (k < length cids)%nat by (apply nth_error_Some; congruence).
  rewrite (IH (S k)); [reflexivity | lia].
Qed.

Lemma pair_tokens_at ids cids :
  (length ids <= length cids)%nat ->
  exists tokens,
    pair_tokens ids cids = Ok tokens
    /\ length tokens = length ids
    /\ forall i,
        nth_error tokens i =
          match nth_error ids i with
          | Some id => option_map (fun cid => mkTokenDetails (Num id) (Some cid))
                                  (nth_error cids i)
          | None => None
          end.
Proof.
  intros Hlen. destruct (pair_from 0 ids cids Hlen) as (tokens & Hrun & Hlength & Hnth).
  exists tokens. split; [exact Hrun|]. split; [exact Hlength|].
  intros i. rewrite Hnth. simpl.
  destruct (nth_error ids i); [|reflexivity]. now destruct (nth_error cids i).
Qed.

Lemma pair_tokens_short ids cids :
  (length cids < length ids)%nat ->
  pair_tokens ids cids = Throw (RangeError "out of result range").
Proof. intros Hlen. apply pair_from_short. lia. Qed.

(** Every way a range query can end. *)
Lemma range_query_cases (method : string)
    (response : Contract -> Z -> JsNumber -> outcome (list Z * list string)) (msg : string)
    start count w :
  try_catch
    (let end_ := js_add start count in
     result <- contract_call method [ANum start; ANumber end_]
                 (fun h => response h start end_) ;;
     tokenIds <- response_at "0" fst result ;;
     cidHashs <- response_at "1" snd result ;;
     tokens <- eval (pair_tokens tokenIds cidHashs) ;;
     ret tokens)
    (fun error => console_error msg error ;; ret []) w =
    let call := ContractCall method [ANum start; ANumber (js_add start count)] in
    match contract (conn w) with
    | None =>
        (Ok [],
         after w [ConsoleError msg
                    (Some (TypeError "Cannot read properties of undefined (reading '0')"))])
    | Some h =>
        match response h start (js_add start count) with
        | Ok (ids, cids) =>
            match pair_tokens ids cids with
            | Ok tokens => (Ok tokens, after w [call])
            | Throw e => (Ok [], after w [call; ConsoleError msg (Some e)])
            end
        | Throw e => (Ok [], after w [call; ConsoleError msg (Some e)])
        end
    end.
Proof.
  unfold try_catch. cbv zeta. rewrite read_body_cases.
  destruct (contract (conn w)) as [h|]; [|reflexivity].
  destruct (response h start (js_add start count)) as [[ids cids]|e].
  - unfold response_at. unfold bind at 1, ret at 1. unfold bind at 1, ret at 1.
    simpl fst. simpl snd. rewrite bind_eval.
    destruct (pair_tokens ids cids) as [tokens|e]; [reflexivity|].
    now rewrite handler_default, after_after.
  - now rewrite handler_default, after_after.
Qed.

(** The precondition is not checked: with fewer cid hashes than token
    identifiers the zip raises. *)
Example pair_tokens_short_cids :
  pair_tokens [4; 5] ["QmA"] = Throw (RangeError "out of result range").
Proof. reflexivity. Qed.

(** C5, amended. For [start >= 0] and [count >= 0] whose sum is at most
    2^53 (so that the addition of the two numbers is exact),
    [getTokensInRange(start, count)] asks the contract for the indices
    from [start] to [start + count] and, when the two arrays of the
    response have equal length, returns a sequence of that length whose
    [i]-th element pairs the [i]-th tokenId of the first array with the
    [i]-th cidHash of the second, at every position [i]; the same holds
    for [getSharedTokensInRange]. *)
Theorem range_queries_pair_by_index w h start count ids cids :
  0 <= start -> 0 <= count -> start + count <= 2 ^ 53 ->
  contract (conn w) = Some h ->
  length ids = length cids ->
  (c_getTokensInRange h start (Num (start + count)) = Ok (ids, cids) ->
   exists tokens,
     getTokensInRange start count w =
       (Ok tokens,
        after w [ContractCall "getTokensInRange"
                              [ANum start; ANumber (Num (start + count))]])
     /\ length tokens = length ids
     /\ forall i, nth_error tokens i = paired_at ids cids i)
  /\ (c_getSharedTokensInRange h start (Num (start + count)) = Ok (ids, cids) ->
      exists tokens,
        getSharedTokensInRange start count w =
          (Ok tokens,
           after w [ContractCall "getSharedTokensInRange"
                                 [ANum start; ANumber (Num (start + count))]])
        /\ length tokens = length ids
        /\ forall i, nth_error tokens i = paired_at ids cids i).
Proof.
  intros Hstart Hcount Hsum Hc Hlen.
  assert (Hend : js_add start count = Num (start + count))
    by (apply js_add_exact; lia).
  destruct (pair_tokens_at ids cids) as (tokens & Hpair & Hlength & Hnth); [lia|].
  assert (Hat : forall i, nth_error tokens i = paired_at ids cids i).
  { intros i. rewrite Hnth. unfold paired_at.
    destruct (nth_error ids i); [|reflexivity]. now destruct (nth_error cids i). }
  split; intros Hresp; exists tokens.
  - unfold getTokensInRange. rewrite range_query_cases. cbv zeta.
    rewrite Hc, Hend, Hresp, Hpair. auto.
  - unfold getSharedTokensInRange. rewrite range_query_cases. cbv zeta.
    rewrite Hc, Hend, Hresp, Hpair. auto.
Qed.

Lemma range_queries_pair_by_index_witness :
  (exists tokens,
     getTokensInRange 3 2 (bound_world (sample_tx [])) =
       (Ok tokens,
        after (bound_world (sample_tx []))
              [ContractCall "getTokensInRange" [ANum 3; ANumber (Num (3 + 2))]])
     /\ length tokens = length [3; 3 + 1]
     /\ forall i, nth_error tokens i = paired_at [3; 3 + 1] ["QmA"; "QmB"] i)
  /\ (exists tokens,
        getSharedTokensInRange 3 2 (bound_world (sample_tx [])) =
          (Ok tokens,
           after (bound_world (sample_tx []))
                 [ContractCall "getSharedTokensInRange" [ANum 3; ANumber (Num (3 + 2))]])
        /\ length tokens = length [3; 3 + 1]
        /\ forall i, nth_error tokens i = paired_at [3; 3 + 1] ["QmC"; "QmD"] i).
Proof.
  split.
  - refine (proj1 (range_queries_pair_by_index (bound_world (sample_tx []))
                     (sample_contract (sample_tx [])) 3 2 [3; 3 + 1] ["QmA"; "QmB"]
                     _ _ _ eq_refl eq_refl) eq_refl);
      first [lia | vm_compute; discriminate].
  - refine (proj2 (range_queries_pair_by_index (bound_world (sample_tx []))
                     (sample_contract (sample_tx [])) 3 2 [3; 3 + 1] ["QmC"; "QmD"]
                     _ _ _ eq_refl eq_refl) eq_refl);
      first [lia | vm_compute; discriminate].
Defined.

(** C5 as stated fails: for [start] = 2^53 - 1 and [count] = 2 the sum of
    the two numbers is rounded, and the contract is asked for the indices
    up to 2^53, not up to [start + count] = 2^53 + 1. *)
Lemma range_query_end_is_rounded :
  0 <= 2 ^ 53 - 1
  /\ 0 <= 2
  /\ snd (getTokensInRange (2 ^ 53 - 1) 2 (bound_world (sample_tx [])))
     = after (bound_world (sample_tx []))
             [ContractCall "getTokensInRange" [ANum (2 ^ 53 - 1); ANumber (Num (2 ^ 53))]]
  /\ snd (getTokensInRange (2 ^ 53 - 1) 2 (bound_world (sample_tx [])))
     <> after (bound_world (sample_tx []))
              [ContractCall "getTokensInRange"
                            [ANum (2 ^ 53 - 1); ANumber (Num (2 ^ 53 - 1 + 2))]].
Proof.
  split; [vm_compute; discriminate|]. split; [lia|]. split.
  - vm_compute. reflexivity.
  - vm_compute. discriminate.
Qed.
(** ** Absent connection *)

(** With the contract handle absent, the operations that go on to use the
    transaction or the response raise a TypeError inside their [try], and
    their handler turns it into the default value; [reencrypt] reaches its
    own test of the missing response. None of them raises. *)
Lemma absent_contract_defaults w :
  contract (conn w) = None ->
  let no_wait := TypeError "Cannot read properties of undefined (reading 'wait')" in
  let no_hash := TypeError "Cannot read properties of undefined (reading 'hash')" in
  let no_zero := TypeError "Cannot read properties of undefined (reading '0')" in
  (forall to id, transferToken to id w =
     (Ok false, after w [ConsoleError "Error transferring token:" (Some no_wait)]))
  /\ (forall to id, js_length to <> 0%nat -> shareToken to id w =
     (Ok false, after w [ConsoleError "Error contract.shareToken:" (Some no_wait)]))
  /\ (forall id limit, burnToken id limit w =
     (Ok false, after w [ConsoleError "Error contract.burnToken :" (Some no_hash)]))
  /\ (forall id user, revokeTokenAccess id user w =
     (Ok false, after w [ConsoleError "Error revoking access:" (Some no_wait)]))
  /\ (forall id limit, revokeAllSharedAccess id limit w =
     (Ok false, after w [ConsoleError "Error revoking all shared access:" (Some no_wait)]))
  /\ (forall start count, getTokensInRange start count w =
     (Ok [], after w [ConsoleError "Error contract.getTokensInRange:" (Some no_zero)]))
  /\ (forall start count, getSharedTokensInRange start count w =
     (Ok [], after w [ConsoleError "Error in fetching shared tokens:" (Some no_zero)]))
  /\ (forall id key sig, reencrypt id key sig w =
     (Ok [], after w [ConsoleError "No return for contract.reencrypt" None])).
Proof.
  intros Hnone. cbv zeta.
  repeat split; intros.
  - unfold transferToken. erewrite try_catch_throw; [reflexivity|].
    erewrite bind_ok by (now apply contract_call_absent). reflexivity.
  - unfold shareToken. erewrite try_catch_throw; [reflexivity|].
    destruct (Nat.eqb_spec (js_length to) 0); [contradiction|].
    erewrite bind_ok by reflexivity.
    erewrite bind_ok by (now apply contract_call_absent). reflexivity.
  - unfold burnToken. erewrite try_catch_throw; [reflexivity|].
    erewrite bind_ok by (now apply contract_call_absent). reflexivity.
  - unfold revokeTokenAccess. erewrite try_catch_throw; [reflexivity|].
    erewrite bind_ok by (now apply contract_call_absent). reflexivity.
  - unfold revokeAllSharedAccess. erewrite try_catch_throw; [reflexivity|].
    erewrite bind_ok by (now apply contract_call_absent). reflexivity.
  - unfold getTokensInRange. erewrite try_catch_throw; [reflexivity|].
    cbv zeta. erewrite bind_ok by (now apply contract_call_absent). reflexivity.
  - unfold getSharedTokensInRange. erewrite try_catch_throw; [reflexivity|].
    cbv zeta. erewrite bind_ok by (now apply contract_call_absent). reflexivity.
  - unfold reencrypt. erewrite try_catch_ok; [reflexivity|].
    erewrite bind_ok by (now apply contract_call_absent). reflexivity.
Qed.

(** C6, at the failing operations. In the all-absent Connection State
    [getMaxUsersToRemove] returns [undefined], not [0], and
    [getSharedWithAddresses] returns [undefined], not the empty sequence:
    the optional-chained call raises nothing, so the handler holding the
    default value is never entered, and nothing is logged. *)
Theorem absent_contract_undefined_results tr id :
  let w := mkWorld all_absent tr in
  getMaxUsersToRemove w = (Ok None, w)
  /\ getSharedWithAddresses id w = (Ok None, w)
  /\ fst (getMaxUsersToRemove w) <> Ok (Some 0)
  /\ fst (getSharedWithAddresses id w) <> Ok (Some []).
Proof.
  cbv zeta. repeat split; discriminate.
Qed.

(** ** Supply counts *)

(** A failing contract call is logged and raised again, unchanged. *)
Lemma supply_rethrows w h e :
  contract (conn w) = Some h ->
  (c_getSupply h = Throw e ->
   getSupply w =
     (Throw e,
      after w [ContractCall "getSupply" [];
               ConsoleError "Failed to fetch the total number of NFTs:" (Some e)]))
  /\ (c_getSharedWithSupply h = Throw e ->
      getSharedWithSupply w =
        (Throw e,
         after w [ContractCall "getSharedWithSupply" [];
                  ConsoleError "Failed to fetch the total number of NFTs shared: "
                               (Some e)])).
Proof.
  intros Hc. split; intros Hresp.
  - unfold getSupply. erewrite try_catch_throw.
    2:{ apply bind_throw. rewrite (contract_call_bound _ _ _ _ _ Hc), Hresp.
        reflexivity. }
    unfold bind, console_error, emit, throw, after. simpl.
    now rewrite <- app_assoc.
  - unfold getSharedWithSupply. erewrite try_catch_throw.
    2:{ apply bind_throw. rewrite (contract_call_bound _ _ _ _ _ Hc), Hresp.
        reflexivity. }
    unfold bind, console_error, emit, throw, after. simpl.
    now rewrite <- app_assoc.
Qed.

(** A successful call returns [Number] of the contract's count: the count
    itself up to 2^53, the nearest double beyond. *)
Lemma supply_count w h n :
  contract (conn w) = Some h ->
  (c_getSupply h = Ok n ->
   getSupply w = (Ok (Number (VBigInt n)), after w [ContractCall "getSupply" []]))
  /\ (c_getSharedWithSupply h = Ok n ->
      getSharedWithSupply w =
        (Ok (Number (VBigInt n)), after w [ContractCall "getSharedWithSupply" []])).
Proof.
  intros Hc. split; intros Hresp.
  - unfold getSupply. apply try_catch_ok.
    erewrite bind_ok
      by (rewrite (contract_call_bound _ _ _ _ _ Hc), Hresp; reflexivity).
    reflexivity.
  - unfold getSharedWithSupply. apply try_catch_ok.
    erewrite bind_ok
      by (rewrite (contract_call_bound _ _ _ _ _ Hc), Hresp; reflexivity).
    reflexivity.
Qed.

(** The third operation whose handler raises again, [mintToken], does
    raise when the connection is missing: the absent transaction response
    makes [tx.wait()] a TypeError, which is logged and raised again. *)
Lemma mintToken_without_connection w cid keys :
  contract (conn w) = None ->
  let no_wait := TypeError "Cannot read properties of undefined (reading 'wait')" in
  mintToken cid keys w =
    (Throw no_wait,
     after w [ConsoleError "Error in contract.mintToken:" (Some no_wait)]).
Proof.
  intros Hnone. cbv zeta. unfold mintToken. erewrite try_catch_throw; [reflexivity|].
  erewrite bind_ok by (now apply contract_call_absent). reflexivity.
Qed.

(** C7, at the failing cause. With the connection missing, [getSupply] and
    [getSharedWithSupply] raise nothing and log nothing: the
    optional-chained call yields [undefined] and each returns
    [Number(undefined)], that is [NaN]. *)
Theorem supply_without_connection_is_NaN tr :
  let w := mkWorld all_absent tr in
  getSupply w = (Ok NaN, w)
  /\ getSharedWithSupply w = (Ok NaN, w)
  /\ (forall e, fst (getSupply w) <> Throw e)
  /\ (forall e, fst (getSharedWithSupply w) <> Throw e).
Proof.
  cbv zeta. repeat split; discriminate.
Qed.

(** ** Connection Manager *)

(** C8. [initializeProviderAndSigner] never raises, and whenever it
    completes (wallet present, wallet absent, or an exception during
    detection, account request, signer derivation or binding) provider,
    signer and contract are all present or all absent. *)
Theorem initialize_all_or_nothing b w :
  exists w',
    initializeProviderAndSigner b w = (Ok tt, w')
    /\ all_or_nothing (conn w').
Proof.
  unfold initializeProviderAndSigner, provider_getSigner, try_catch, bind, eval,
    external, get_conn, set_provider, set_signer, set_contract, console_warn,
    console_error, emit.
  destruct (window_ethereum b) as [[e|]|err]; simpl.
  - destruct (new_BrowserProvider b e) as [p|err]; simpl.
    + destruct (e_request e "eth_requestAccounts") as [[]|err]; simpl.
      * destruct (p_getSigner p) as [s|err]; simpl.
        -- destruct (new_Contract b contractAddress (Some s)) as [c|err]; simpl;
             eexists; (split; [reflexivity|]).
           ++ left. simpl. repeat split; discriminate.
           ++ right. simpl. auto.
        -- eexists. split; [reflexivity|]. right. simpl. auto.
      * eexists. split; [reflexivity|]. right. simpl. auto.
    + eexists. split; [reflexivity|]. right. simpl. auto.
  - eexists. split; [reflexivity|]. right. simpl. auto.
  - eexists. split; [reflexivity|]. right. simpl. auto.
Qed.

(** ** Connection State is only read *)

Section Frame.
Context {A B : Type}.

Lemma preserves_ret (a : A) : preserves_conn (ret a).
Proof. intros w. reflexivity. Qed.

Lemma preserves_throw e : preserves_conn (@throw A e).
Proof. intros w. reflexivity. Qed.

Lemma preserves_eval (r : outcome A) : preserves_conn (eval r).
Proof. intros w. reflexivity. Qed.

Lemma preserves_external ev (r : outcome A) : preserves_conn (external ev r).
Proof. intros w. reflexivity. Qed.

Lemma preserves_bind (m : M A) (k : A -> M B) :
  preserves_conn m -> (forall a, preserves_conn (k a)) -> preserves_conn (bind m k).
Proof.
  intros Hm Hk w. unfold bind. specialize (Hm w).
  destruct (m w) as [[a|e] w']; simpl in *; [|exact Hm].
  now rewrite Hk.
Qed.

Lemma preserves_try_catch (body : M A) handler :
  preserves_conn body -> (forall e, preserves_conn (handler e)) ->
  preserves_conn (try_catch body handler).
Proof.
  intros Hb Hh w. unfold try_catch. specialize (Hb w).
  destruct (body w) as [[a|e] w']; simpl in *; [exact Hb|].
  now rewrite Hh.
Qed.
End Frame.

Lemma preserves_emit ev : preserves_conn (emit ev).
Proof. intros w. reflexivity. Qed.

Lemma preserves_get_conn : preserves_conn get_conn.
Proof. intros w. reflexivity. Qed.

Create HintDb frame.

#[local] Hint Resolve preserves_ret preserves_throw preserves_eval preserves_external
  preserves_emit preserves_get_conn : frame.

(** One step of a framing proof: split a sequence or a [try], or decide
    the test of a branch. *)
Ltac frame_step :=
  match goal with
  | |- preserves_conn (bind _ _) => apply preserves_bind
  | |- preserves_conn (try_catch _ _) => apply preserves_try_catch
  | |- preserves_conn (match ?x with _ => _ end) => destruct x
  | |- forall _, _ => intro
  | |- preserves_conn (let _ := _ in _) => cbv zeta
  end.

Ltac frame := repeat frame_step; auto with frame.

Lemma preserves_contract_call {A} method args (response : Contract -> outcome A) :
  preserves_conn (contract_call method args response).
Proof. unfold contract_call. frame. Qed.

Lemma preserves_tx_wait_call tx : preserves_conn (tx_wait_call tx).
Proof. unfold tx_wait_call. frame. Qed.

Lemma preserves_scan_logs eventName logs : preserves_conn (scan_logs eventName logs).
Proof.
  induction logs as [|l logs IH]; simpl; [frame|].
  apply preserves_bind; [frame|]. intros c.
  apply preserves_bind; [frame|]. intros event.
  destruct (name_is _ _); [frame | exact IH].
Qed.

#[local] Hint Resolve preserves_contract_call preserves_tx_wait_call
  preserves_scan_logs : frame.

Lemma preserves_getEvent tx eventName : preserves_conn (getEvent tx eventName).
Proof. unfold getEvent. frame. Qed.

#[local] Hint Resolve preserves_getEvent : frame.

(** C9. Every exported function ([getAccount] and the Call Adapter
    operations) leaves the module-level provider, signer and contract
    bindings exactly as they were before the call, whether it returns or
    raises: Connection State is read, never written, outside the
    initializer. *)
Theorem exported_functions_preserve_connection :
  preserves_conn getAccount
  /\ (forall cid keys, preserves_conn (mintToken cid keys))
  /\ (forall start count, preserves_conn (getTokensInRange start count))
  /\ (forall start count, preserves_conn (getSharedTokensInRange start count))
  /\ (forall id, preserves_conn (getSharedWithAddresses id))
  /\ (forall to id, preserves_conn (transferToken to id))
  /\ (forall to id, preserves_conn (shareToken to id))
  /\ (forall id limit, preserves_conn (burnToken id limit))
  /\ preserves_conn getSupply
  /\ preserves_conn getSharedWithSupply
  /\ (forall id key sig, preserves_conn (reencrypt id key sig))
  /\ (forall id user, preserves_conn (revokeTokenAccess id user))
  /\ (forall id limit, preserves_conn (revokeAllSharedAccess id limit))
  /\ preserves_conn getMaxUsersToRemove.
Proof.
  repeat split; intros.
  - unfold getAccount. frame.
  - unfold mintToken, console_error. frame.
  - unfold getTokensInRange, response_at, console_error. frame.
  - unfold getSharedTokensInRange, response_at, console_error. frame.
  - unfold getSharedWithAddresses, console_error. frame.
  - unfold transferToken, console_error. frame.
  - unfold shareToken, console_error. frame.
  - unfold burnToken, tx_hash_of, console_error, console_log. frame.
  - unfold getSupply, console_error. frame.
  - unfold getSharedWithSupply, console_error. frame.
  - unfold reencrypt, console_error, console_error_msg. frame.
  - unfold revokeTokenAccess, console_error. frame.
  - unfold revokeAllSharedAccess, console_error. frame.
  - unfold getMaxUsersToRemove, console_error. frame.
Qed.

(** The initializer is the writer: from the all-absent state, with a wallet
    that grants access, it binds all three. *)
Lemma initialize_writes_connection :
  conn (snd (initializeProviderAndSigner sample_browser absent_world))
    = mkConn (Some sample_provider) (Some sample_signer)
             (Some (sample_contract (sample_tx [])))
  /\ conn (snd (initializeProviderAndSigner sample_browser absent_world))
       <> conn absent_world.
Proof.
  split; [reflexivity | discriminate].
Qed.

(** ** Concrete runs *)

Example transferToken_confirmed :
  transferToken "0xB0B" 7 (bound_world (sample_tx []))
    = (Ok true,
       after (bound_world (sample_tx []))
             [ContractCall "transferToken" [AStr "0xB0B"; ANum 7]; TxWait "0xabc"]).
Proof. reflexivity. Qed.

Example shareToken_reverted :
  shareToken (RList ["0xB0B"]) 7
             (bound_world (mkTx "0xdef" (Throw (Rejected "CALL_EXCEPTION" "reverted"))))
    = (Ok false,
       after (bound_world (mkTx "0xdef" (Throw (Rejected "CALL_EXCEPTION" "reverted"))))
             [ContractCall "shareToken" [ANum 7; ARecipients (RList ["0xB0B"])];
              TxWait "0xdef";
              ConsoleError "Error contract.shareToken:"
                           (Some (Rejected "CALL_EXCEPTION" "reverted"))]).
Proof. reflexivity. Qed.

Example getAccount_connected :
  getAccount (bound_world (sample_tx []))
    = (Ok "0xA11CE",
       after (bound_world (sample_tx []))
             [ProviderSend "eth_requestAccounts"; SignerGetAddress]).
Proof. reflexivity. Qed.

Example getAccount_not_connected : getAccount absent_world = (Ok "", absent_world).
Proof. reflexivity. Qed.

Example getMaxUsersToRemove_connected :
  getMaxUsersToRemove (bound_world (sample_tx []))
    = (Ok (Some 10),
       after (bound_world (sample_tx [])) [ContractCall "MAX_USERS_TO_REMOVE" []]).
Proof. reflexivity. Qed.

Example initialize_without_wallet :
  initializeProviderAndSigner
    (mkBrowser (Ok None) (fun _ => Ok sample_provider)
               (fun _ _ => Ok (sample_contract (sample_tx []))))
    (bound_world (sample_tx []))
    = (Ok tt,
       mkWorld all_absent
         [ConsoleWarn "MetaMask or Web3 provider not found. Please install or enable it."]).
Proof. reflexivity. Qed.

(** * Further properties of the client *)

(** ** Boolean writes *)

(** The four ways a call-then-wait body can end. *)
Lemma write_body_cases (method : string) args (response : Contract -> outcome Tx) w :
  (tx <- contract_call method args response ;; tx_wait_call tx ;; ret true) w =
    match contract (conn w) with
    | None => (Throw no_wait, w)
    | Some h =>
        match response h with
        | Throw e => (Throw e, after w [ContractCall method args])
        | Ok tx =>
            match tx_wait tx with
            | Ok _ => (Ok true, after w [ContractCall method args; TxWait (tx_hash tx)])
            | Throw e => (Throw e, after w [ContractCall method args; TxWait (tx_hash tx)])
            end
        end
    end.
Proof.
  destruct (contract (conn w)) as [h|] eqn:Hc.
  - unfold bind at 1. rewrite (contract_call_bound _ _ _ _ _ Hc).
    destruct (response h) as [tx|e]; [|reflexivity].
    unfold bind. rewrite tx_wait_call_some.
    destruct (tx_wait tx); rewrite after_after; reflexivity.
  - unfold bind at 1. rewrite (contract_call_absent _ _ _ _ Hc). reflexivity.
Qed.

Lemma handler_false msg e w :
  (console_error msg e ;; ret false) w = (Ok false, after w [ConsoleError msg (Some e)]).
Proof. reflexivity. Qed.

(** The same for a whole write of the call-then-wait shape. *)
Lemma write_cases (method : string) args (response : Contract -> outcome Tx) msg w :
  try_catch
    (tx <- contract_call method args response ;; tx_wait_call tx ;; ret true)
    (fun error => console_error msg error ;; ret false) w =
    match contract (conn w) with
    | None => (Ok false, after w [ConsoleError msg (Some no_wait)])
    | Some h =>
        match response h with
        | Throw e =>
            (Ok false, after w [ContractCall method args; ConsoleError msg (Some e)])
        | Ok tx =>
            match tx_wait tx with
            | Ok _ => (Ok true, after w [ContractCall method args; TxWait (tx_hash tx)])
            | Throw e =>
                (Ok false,
                 after w [ContractCall method args; TxWait (tx_hash tx);
                          ConsoleError msg (Some e)])
            end
        end
    end.
Proof.
  unfold try_catch. rewrite write_body_cases.
  destruct (contract (conn w)) as [h|]; [|reflexivity].
  destruct (response h) as [tx|e].
  - destruct (tx_wait tx); [reflexivity|].
    rewrite handler_false, after_after. reflexivity.
  - rewrite handler_false, after_after. reflexivity.
Qed.

Lemma shareToken_cases to id w :
  shareToken to id w =
    if Nat.eqb (js_length to) 0
    then (Ok false,
          after w [ConsoleError "Error contract.shareToken:"
                                (Some (Error "Recipient list cannot be empty."))])
    else
      match contract (conn w) with
      | None => (Ok false, after w [ConsoleError "Error contract.shareToken:" (Some no_wait)])
      | Some h =>
          match c_shareToken h id to with
          | Throw e =>
              (Ok false,
               after w [ContractCall "shareToken" [ANum id; ARecipients to];
                        ConsoleError "Error contract.shareToken:" (Some e)])
          | Ok tx =>
              match tx_wait tx with
              | Ok _ =>
                  (Ok true,
                   after w [ContractCall "shareToken" [ANum id; ARecipients to];
                            TxWait (tx_hash tx)])
              | Throw e =>
                  (Ok false,
                   after w [ContractCall "shareToken" [ANum id; ARecipients to];
                            TxWait (tx_hash tx);
                            ConsoleError "Error contract.shareToken:" (Some e)])
              end
          end
      end.
Proof.
  unfold shareToken. destruct (Nat.eqb (js_length to) 0); [reflexivity|].
  rewrite <- write_cases. reflexivity.
Qed.

Lemma burnToken_cases id limit w :
  burnToken id limit w =
    match contract (conn w) with
    | None => (Ok false, after w [ConsoleError "Error contract.burnToken :" (Some no_hash)])
    | Some h =>
        match c_burnToken h id limit with
        | Throw e =>
            (Ok false,
             after w [ContractCall "burnToken" [ANum id; ANum limit];
                      ConsoleError "Error contract.burnToken :" (Some e)])
        | Ok tx =>
            match tx_wait tx with
            | Ok _ =>
                (Ok true,
                 after w [ContractCall "burnToken" [ANum id; ANum limit];
                          ConsoleLog "Transaction hash:" (tx_hash tx);
                          TxWait (tx_hash tx)])
            | Throw e =>
                (Ok false,
                 after w [ContractCall "burnToken" [ANum id; ANum limit];
                          ConsoleLog "Transaction hash:" (tx_hash tx);
                          TxWait (tx_hash tx);
                          ConsoleError "Error contract.burnToken :" (Some e)])
            end
        end
    end.
Proof.
  unfold burnToken, try_catch.
  destruct (contract (conn w)) as [h|] eqn:Hc.
  - unfold bind at 1. rewrite (contract_call_bound _ _ _ _ _ Hc).
    destruct (c_burnToken h id limit) as [tx|e].
    + unfold bind, tx_hash_of, ret, console_log, emit. simpl.
      destruct (tx_wait tx); unfold after; simpl; rewrite <- ?app_assoc; reflexivity.
    + rewrite handler_false, after_after. reflexivity.
  - unfold bind at 1. rewrite (contract_call_absent _ _ _ _ Hc). reflexivity.
Qed.

(** Rewrite a boolean write into the table of its outcomes. *)
Ltac write_table :=
  first [ rewrite shareToken_cases
        | rewrite burnToken_cases
        | unfold transferToken, revokeTokenAccess, revokeAllSharedAccess;
          rewrite write_cases ].

(** Settle "returns [true] exactly when confirmed" by walking through
    that table. *)
Ltac confirmed_iff w :=
  write_table;
  destruct (contract (conn w)) as [h|]; simpl;
  [ match goal with
    | |- context [match ?r with Ok _ => _ | Throw _ => _ end] =>
        let Hr := fresh "Hr" in
        destruct r as [tx|e] eqn:Hr; simpl;
        [ let Hw := fresh "Hw" in destruct (tx_wait tx) as [r'|e] eqn:Hw; simpl | ]
    end | ];
  (split;
   [ intros H; try discriminate; eauto 10
   | intros (h' & tx' & r'' & Hc & Hr' & Hw'); congruence ]).

(** X1. A boolean write returns [true] exactly when the contract handle
    is bound, the contract method resolved to a transaction and the wait
    for its confirmation resolved; [shareToken] needs a non-empty recipient
    list besides. *)
Theorem writes_true_iff_confirmed w :
  (forall to id,
      fst (transferToken to id w) = Ok true <->
      exists h tx r, contract (conn w) = Some h
                     /\ c_transferToken h to id = Ok tx /\ tx_wait tx = Ok r)
  /\ (forall to id,
      fst (shareToken to id w) = Ok true <->
      js_length to <> 0%nat
      /\ exists h tx r, contract (conn w) = Some h
                        /\ c_shareToken h id to = Ok tx /\ tx_wait tx = Ok r)
  /\ (forall id limit,
      fst (burnToken id limit w) = Ok true <->
      exists h tx r, contract (conn w) = Some h
                     /\ c_burnToken h id limit = Ok tx /\ tx_wait tx = Ok r)
  /\ (forall id user,
      fst (revokeTokenAccess id user w) = Ok true <->
      exists h tx r, contract (conn w) = Some h
                     /\ c_revokeTokenAccess h id user = Ok tx /\ tx_wait tx = Ok r)
  /\ (forall id limit,
      fst (revokeAllSharedAccess id limit w) = Ok true <->
      exists h tx r, contract (conn w) = Some h
                     /\ c_revokeAllSharedAccess h id limit = Ok tx /\ tx_wait tx = Ok r).
Proof.
  split; [|split; [|split; [|split]]]; intros.
  - confirmed_iff w.
  - rewrite shareToken_cases.
    destruct (Nat.eqb_spec (js_length to) 0) as [Hz|Hnz].
    + split; [discriminate | intros [Hne _]; contradiction].
    + destruct (contract (conn w)) as [h|]; simpl.
      * destruct (c_shareToken h id to) as [tx|e] eqn:Hr; simpl.
        -- destruct (tx_wait tx) as [r|e] eqn:Hw; simpl.
           ++ split; eauto 10.
           ++ split; [discriminate|].
              intros (_ & h' & tx' & r' & Hc & Hr' & Hw'). congruence.
        -- split; [discriminate|].
           intros (_ & h' & tx' & r' & Hc & Hr' & Hw'). congruence.
      * split; [discriminate|].
        intros (_ & h' & tx' & r' & Hc & _). discriminate.
  - confirmed_iff w.
  - confirmed_iff w.
  - confirmed_iff w.
Qed.

Lemma Nat_eqb_neq_false n m : n <> m -> Nat.eqb n m = false.
Proof. apply Nat.eqb_neq. Qed.

(** X2. When the contract method of a boolean write rejects (a revert, a
    network error), the write logs that very error and returns [false]
    without waiting for any confirmation. *)
Theorem rejected_call_skips_wait w h e :
  contract (conn w) = Some h ->
  (forall to id, c_transferToken h to id = Throw e ->
     transferToken to id w =
       (Ok false,
        after w [ContractCall "transferToken" [AStr to; ANum id];
                 ConsoleError "Error transferring token:" (Some e)]))
  /\ (forall to id, js_length to <> 0%nat -> c_shareToken h id to = Throw e ->
     shareToken to id w =
       (Ok false,
        after w [ContractCall "shareToken" [ANum id; ARecipients to];
                 ConsoleError "Error contract.shareToken:" (Some e)]))
  /\ (forall id limit, c_burnToken h id limit = Throw e ->
     burnToken id limit w =
       (Ok false,
        after w [ContractCall "burnToken" [ANum id; ANum limit];
                 ConsoleError "Error contract.burnToken :" (Some e)]))
  /\ (forall id user, c_revokeTokenAccess h id user = Throw e ->
     revokeTokenAccess id user w =
       (Ok false,
        after w [ContractCall "revokeTokenAccess" [ANum id; AStr user];
                 ConsoleError "Error revoking access:" (Some e)]))
  /\ (forall id limit, c_revokeAllSharedAccess h id limit = Throw e ->
     revokeAllSharedAccess id limit w =
       (Ok false,
        after w [ContractCall "revokeAllSharedAccess" [ANum id; ANum limit];
                 ConsoleError "Error revoking all shared access:" (Some e)])).
Proof.
  intros Hc. repeat split; intros.
  all: write_table; rewrite ?Nat_eqb_neq_false by assumption; rewrite Hc.
  all: match goal with Hr : _ = Throw _ |- _ => rewrite Hr end; reflexivity.
Qed.

Lemma rejected_call_skips_wait_witness :
  transferToken "0xB0B" 7 reverting_world =
    (Ok false,
     after reverting_world
       [ContractCall "transferToken" [AStr "0xB0B"; ANum 7];
        ConsoleError "Error transferring token:" (Some revert_error)])
  /\ shareToken (RList ["0xB0B"]) 7 reverting_world =
    (Ok false,
     after reverting_world
       [ContractCall "shareToken" [ANum 7; ARecipients (RList ["0xB0B"])];
        ConsoleError "Error contract.shareToken:" (Some revert_error)])
  /\ burnToken 7 10 reverting_world =
    (Ok false,
     after reverting_world
       [ContractCall "burnToken" [ANum 7; ANum 10];
        ConsoleError "Error contract.burnToken :" (Some revert_error)])
  /\ revokeTokenAccess 7 "0xB0B" reverting_world =
    (Ok false,
     after reverting_world
       [ContractCall "revokeTokenAccess" [ANum 7; AStr "0xB0B"];
        ConsoleError "Error revoking access:" (Some revert_error)])
  /\ revokeAllSharedAccess 7 10 reverting_world =
    (Ok false,
     after reverting_world
       [ContractCall "revokeAllSharedAccess" [ANum 7; ANum 10];
        ConsoleError "Error revoking all shared access:" (Some revert_error)]).
Proof.
  destruct (rejected_call_skips_wait reverting_world reverting_contract revert_error
              eq_refl) as (H1 & H2 & H3 & H4 & H5).
  split; [|split; [|split; [|split]]].
  - exact (H1 "0xB0B" 7 eq_refl).
  - refine (H2 (RList ["0xB0B"]) 7 _ eq_refl). discriminate.
  - exact (H3 7 10 eq_refl).
  - exact (H4 7 "0xB0B" eq_refl).
  - exact (H5 7 10 eq_refl).
Defined.

(** X3. When the contract method resolved but the wait for the
    confirmation rejects, a boolean write logs that error and returns
    [false]; [burnToken] has logged the transaction hash before waiting. *)
Theorem rejected_wait_returns_false w h tx e :
  contract (conn w) = Some h ->
  tx_wait tx = Throw e ->
  (forall to id, c_transferToken h to id = Ok tx ->
     transferToken to id w =
       (Ok false,
        after w [ContractCall "transferToken" [AStr to; ANum id];
                 TxWait (tx_hash tx);
                 ConsoleError "Error transferring token:" (Some e)]))
  /\ (forall to id, js_length to <> 0%nat -> c_shareToken h id to = Ok tx ->
     shareToken to id w =
       (Ok false,
        after w [ContractCall "shareToken" [ANum id; ARecipients to];
                 TxWait (tx_hash tx);
                 ConsoleError "Error contract.shareToken:" (Some e)]))
  /\ (forall id limit, c_burnToken h id limit = Ok tx ->
     burnToken id limit w =
       (Ok false,
        after w [ContractCall "burnToken" [ANum id; ANum limit];
                 ConsoleLog "Transaction hash:" (tx_hash tx);
                 TxWait (tx_hash tx);
                 ConsoleError "Error contract.burnToken :" (Some e)]))
  /\ (forall id user, c_revokeTokenAccess h id user = Ok tx ->
     revokeTokenAccess id user w =
       (Ok false,
        after w [ContractCall "revokeTokenAccess" [ANum id; AStr user];
                 TxWait (tx_hash tx);
                 ConsoleError "Error revoking access:" (Some e)]))
  /\ (forall id limit, c_revokeAllSharedAccess h id limit = Ok tx ->
     revokeAllSharedAccess id limit w =
       (Ok false,
        after w [ContractCall "revokeAllSharedAccess" [ANum id; ANum limit];
                 TxWait (tx_hash tx);
                 ConsoleError "Error revoking all shared access:" (Some e)])).
Proof.
  intros Hc Hw. repeat split; intros.
  all: write_table; rewrite ?Nat_eqb_neq_false by assumption; rewrite Hc.
  all: match goal with Hr : _ = Ok _ |- _ => rewrite Hr end; rewrite Hw; reflexivity.
Qed.

Lemma rejected_wait_returns_false_witness :
  transferToken "0xB0B" 7 (bound_world dropped_tx) =
    (Ok false,
     after (bound_world dropped_tx)
       [ContractCall "transferToken" [AStr "0xB0B"; ANum 7];
        TxWait "0xdead";
        ConsoleError "Error transferring token:" (Some timeout_error)])
  /\ burnToken 7 10 (bound_world dropped_tx) =
    (Ok false,
     after (bound_world dropped_tx)
       [ContractCall "burnToken" [ANum 7; ANum 10];
        ConsoleLog "Transaction hash:" "0xdead";
        TxWait "0xdead";
        ConsoleError "Error contract.burnToken :" (Some timeout_error)]).
Proof.
  destruct (rejected_wait_returns_false (bound_world dropped_tx)
              (sample_contract dropped_tx) dropped_tx timeout_error
              eq_refl eq_refl) as (H1 & _ & H3 & _).
  split.
  - exact (H1 "0xB0B" 7 eq_refl).
  - exact (H3 7 10 eq_refl).
Defined.

(** ** Operations that never raise *)

Lemma never_raises_ret {A} (a : A) : never_raises (ret a).
Proof. intros w e. discriminate. Qed.

Lemma never_raises_default {A} msg error (a : A) :
  never_raises (console_error msg error ;; ret a).
Proof. intros w e. discriminate. Qed.

(** A [try] whose handler ends in a value lets no exception out. *)
Lemma never_raises_try_catch {A} (body : M A) handler :
  (forall error, never_raises (handler error)) ->
  never_raises (try_catch body handler).
Proof.
  intros Hh w e. unfold try_catch.
  destruct (body w) as [[a|e'] w']; [discriminate | apply Hh].
Qed.

(** X4. [getAccount] and every Call Adapter operation other than
    [mintToken], [getSupply] and [getSharedWithSupply] never raise:
    whatever the connection, the arguments and the behaviour of wallet
    and contract, each of them ends in a value. *)
Theorem defaulting_operations_never_raise :
  never_raises getAccount
  /\ (forall start count, never_raises (getTokensInRange start count))
  /\ (forall start count, never_raises (getSharedTokensInRange start count))
  /\ (forall id, never_raises (getSharedWithAddresses id))
  /\ (forall to id, never_raises (transferToken to id))
  /\ (forall to id, never_raises (shareToken to id))
  /\ (forall id limit, never_raises (burnToken id limit))
  /\ (forall id key sig, never_raises (reencrypt id key sig))
  /\ (forall id user, never_raises (revokeTokenAccess id user))
  /\ (forall id limit, never_raises (revokeAllSharedAccess id limit))
  /\ never_raises getMaxUsersToRemove.
Proof.
  split.
  { intros w e. unfold getAccount, bind at 1, get_conn.
    destruct (provider (conn w)) as [p|]; [|discriminate].
    destruct (signer (conn w)) as [s|]; [|discriminate].
    apply never_raises_try_catch. intros error. apply never_raises_default. }
  repeat split; intros;
    apply never_raises_try_catch; intros error; apply never_raises_default.
Qed.

(** ** Minting, in full *)

(** X5. Whenever [mintToken] raises, the error raised is the one it logged:
    the run ends with exactly one [console.error] entry, carrying that
    error, and everything before it is a contract call or a confirmation
    wait. *)
Theorem mintToken_raises_what_it_logged w cid keys e :
  fst (mintToken cid keys w) = Throw e ->
  exists evs,
    snd (mintToken cid keys w) =
      after w (evs ++ [ConsoleError "Error in contract.mintToken:" (Some e)])
    /\ forallb is_chain_effect evs = true.
Proof.
  pose proof (mintToken_cases cid keys w) as Hrun. cbv zeta in Hrun.
  rewrite Hrun. clear Hrun.
  destruct (contract (conn w)) as [h|].
  - destruct (c_mintToken h cid keys) as [tx|e1].
    + destruct (tx_wait tx) as [receipt|e1].
      * destruct (first_event _ _ _) as [[ev|]|e1].
        -- destruct (result_get (ev_args ev) 0) as [v|e1]; [discriminate|].
           intros [= <-].
           exists [ContractCall "mintToken" [AStr cid; ABytesList keys];
                   TxWait (tx_hash tx)].
           split; reflexivity.
        -- intros [= <-].
           exists [ContractCall "mintToken" [AStr cid; ABytesList keys];
                   TxWait (tx_hash tx)].
           split; reflexivity.
        -- intros [= <-].
           exists [ContractCall "mintToken" [AStr cid; ABytesList keys];
                   TxWait (tx_hash tx)].
           split; reflexivity.
      * intros [= <-].
        exists [ContractCall "mintToken" [AStr cid; ABytesList keys]; TxWait (tx_hash tx)].
        split; reflexivity.
    + intros [= <-].
      exists [ContractCall "mintToken" [AStr cid; ABytesList keys]].
      split; reflexivity.
  - intros [= <-]. exists []. split; reflexivity.
Qed.

Lemma mintToken_raises_what_it_logged_witness :
  exists evs,
    snd (mintToken "Qm123" [] (bound_world dropped_tx)) =
      after (bound_world dropped_tx)
        (evs ++ [ConsoleError "Error in contract.mintToken:" (Some timeout_error)])
    /\ forallb is_chain_effect evs = true.
Proof.
  exact (mintToken_raises_what_it_logged (bound_world dropped_tx) "Qm123" []
           timeout_error eq_refl).
Defined.

(** X6. A TokenDetails returned by [mintToken] is genuine: it carries the
    caller's cidHash, the contract handle was bound, the call resolved to
    a transaction whose confirmation arrived, its identifier is
    [Number] of the first argument of the first [TokenMinted] event of the
    receipt (every log before it was decoded, without raising, to no such
    event), and nothing was logged. *)
Theorem mintToken_result_is_genuine w cid keys details w' :
  mintToken cid keys w = (Ok details, w') ->
  cidHash details = Some cid
  /\ exists h tx receipt pre log post ev,
      contract (conn w) = Some h
      /\ c_mintToken h cid keys = Ok tx
      /\ tx_wait tx = Ok receipt
      /\ logs_of receipt = (pre ++ log :: post)%list
      /\ (forall l, In l pre -> ~ decodes_to (Some h) "TokenMinted" l)
      /\ (forall l, In l pre -> skipped (Some h) "TokenMinted" l)
      /\ c_parseLog h log = Ok (Some ev)
      /\ ev_name ev = "TokenMinted"
      /\ tokenId details = Number (nth 0 (ev_args ev) VUndefined)
      /\ w' = after w [ContractCall "mintToken" [AStr cid; ABytesList keys];
                       TxWait (tx_hash tx)].
Proof.
  pose proof (mintToken_cases cid keys w) as Hrun. cbv zeta in Hrun.
  rewrite Hrun. clear Hrun.
  destruct (contract (conn w)) as [h|]; [|discriminate].
  destruct (c_mintToken h cid keys) as [tx|e] eqn:Hmint; [|discriminate].
  destruct (tx_wait tx) as [receipt|e] eqn:Hw; [|discriminate].
  destruct (first_event _ _ _) as [[ev|]|e] eqn:Hev; [|discriminate|discriminate].
  unfold result_get.
  destruct (nth_error (ev_args ev) 0) as [v|] eqn:Harg; [|discriminate].
  intros [= <- <-]. split; [reflexivity|].
  destruct (first_event_some _ _ _ _ Hev) as (pre & log & post & Hlogs & Hpre & Hlog & Hname).
  exists h, tx, receipt, pre, log, post, ev.
  repeat split; try assumption.
  - intros l Hin. now apply skipped_not_decodes, Hpre.
  - simpl. revert Harg. destruct (ev_args ev); simpl; [discriminate | congruence].
Qed.

Lemma mintToken_result_is_genuine_witness :
  cidHash (mkTokenDetails (Num 7) (Some "Qm123")) = Some "Qm123"
  /\ exists h tx receipt pre log post ev,
      contract (conn (bound_world (sample_tx [sample_log "minted 7"]))) = Some h
      /\ c_mintToken h "Qm123" [] = Ok tx
      /\ tx_wait tx = Ok receipt
      /\ logs_of receipt = (pre ++ log :: post)%list
      /\ (forall l, In l pre -> ~ decodes_to (Some h) "TokenMinted" l)
      /\ (forall l, In l pre -> skipped (Some h) "TokenMinted" l)
      /\ c_parseLog h log = Ok (Some ev)
      /\ ev_name ev = "TokenMinted"
      /\ tokenId (mkTokenDetails (Num 7) (Some "Qm123"))
           = Number (nth 0 (ev_args ev) VUndefined)
      /\ after (bound_world (sample_tx [sample_log "minted 7"]))
               [ContractCall "mintToken" [AStr "Qm123"; ABytesList []]; TxWait "0xabc"]
         = after (bound_world (sample_tx [sample_log "minted 7"]))
                 [ContractCall "mintToken" [AStr "Qm123"; ABytesList []];
                  TxWait (tx_hash tx)].
Proof.
  exact (mintToken_result_is_genuine
           (bound_world (sample_tx [sample_log "minted 7"])) "Qm123" []
           (mkTokenDetails (Num 7) (Some "Qm123")) _ eq_refl).
Defined.

(** X7. [mintToken] hands a rejection on unchanged: when the contract
    method rejects, that error is logged and raised without any wait; when
    the wait for the confirmation rejects, that error is logged and
    raised. *)
Theorem mintToken_propagates_rejection w h cid keys e :
  contract (conn w) = Some h ->
  (c_mintToken h cid keys = Throw e ->
   mintToken cid keys w =
     (Throw e,
      after w [ContractCall "mintToken" [AStr cid; ABytesList keys];
               ConsoleError "Error in contract.mintToken:" (Some e)]))
  /\ (forall tx, c_mintToken h cid keys = Ok tx -> tx_wait tx = Throw e ->
      mintToken cid keys w =
        (Throw e,
         after w [ContractCall "mintToken" [AStr cid; ABytesList keys];
                  TxWait (tx_hash tx);
                  ConsoleError "Error in contract.mintToken:" (Some e)])).
Proof.
  intros Hc.
  pose proof (mintToken_cases cid keys w) as Hrun. cbv zeta in Hrun.
  rewrite Hrun, Hc. clear Hrun.
  split.
  - intros ->. reflexivity.
  - intros tx -> ->. reflexivity.
Qed.

Lemma mintToken_propagates_rejection_witness :
  mintToken "Qm123" [] reverting_world =
    (Throw revert_error,
     after reverting_world
       [ContractCall "mintToken" [AStr "Qm123"; ABytesList []];
        ConsoleError "Error in contract.mintToken:" (Some revert_error)])
  /\ mintToken "Qm123" [] (bound_world dropped_tx) =
    (Throw timeout_error,
     after (bound_world dropped_tx)
       [ContractCall "mintToken" [AStr "Qm123"; ABytesList []];
        TxWait "0xdead";
        ConsoleError "Error in contract.mintToken:" (Some timeout_error)]).
Proof.
  split.
  - exact (proj1 (mintToken_propagates_rejection reverting_world reverting_contract
                    "Qm123" [] revert_error eq_refl) eq_refl).
  - exact (proj2 (mintToken_propagates_rejection (bound_world dropped_tx)
                    (sample_contract dropped_tx) "Qm123" [] timeout_error eq_refl)
                 dropped_tx eq_refl eq_refl).
Defined.

(** X8. The first argument of the event is read from an ethers [Result]:
    when the first [TokenMinted] event of the receipt carries no argument,
    the access raises a RangeError, which [mintToken] logs and raises; no
    token is returned. *)
Theorem mintToken_without_argument_raises w h cid keys tx receipt pre log post ev :
  contract (conn w) = Some h ->
  c_mintToken h cid keys = Ok tx ->
  tx_wait tx = Ok receipt ->
  logs_of receipt = (pre ++ log :: post)%list ->
  (forall l, In l pre -> skipped (Some h) "TokenMinted" l) ->
  c_parseLog h log = Ok (Some ev) ->
  ev_name ev = "TokenMinted" ->
  ev_args ev = [] ->
  mintToken cid keys w =
    (Throw (RangeError "out of result range"),
     after w [ContractCall "mintToken" [AStr cid; ABytesList keys];
              TxWait (tx_hash tx);
              ConsoleError "Error in contract.mintToken:"
                           (Some (RangeError "out of result range"))]).
Proof.
  intros Hc Hmint Hw Hlogs Hpre Hlog Hname Hargs.
  pose proof (mintToken_cases cid keys w) as Hrun. cbv zeta in Hrun.
  rewrite Hrun, Hc, Hmint, Hw, Hlogs. clear Hrun.
  rewrite (first_event_at (Some h) _ pre log post ev Hpre Hlog Hname).
  now rewrite Hargs.
Qed.

Lemma mintToken_without_argument_raises_witness :
  mintToken "Qm123" [] (bound_world_of (bare_contract (sample_tx [sample_log "any"]))) =
    (Throw (RangeError "out of result range"),
     after (bound_world_of (bare_contract (sample_tx [sample_log "any"])))
       [ContractCall "mintToken" [AStr "Qm123"; ABytesList []]; TxWait "0xabc";
        ConsoleError "Error in contract.mintToken:"
                     (Some (RangeError "out of result range"))]).
Proof.
  refine (mintToken_without_argument_raises
            (bound_world_of (bare_contract (sample_tx [sample_log "any"])))
            _ "Qm123" [] _ _ [] (sample_log "any") [] _
            eq_refl eq_refl eq_refl eq_refl _ eq_refl eq_refl eq_refl).
  intros l [].
Defined.

(** ** Reads *)

Lemma getSupply_cases w :
  getSupply w =
    match contract (conn w) with
    | None => (Ok NaN, w)
    | Some h =>
        match c_getSupply h with
        | Ok n => (Ok (Number (VBigInt n)), after w [ContractCall "getSupply" []])
        | Throw e =>
            (Throw e,
             after w [ContractCall "getSupply" [];
                      ConsoleError "Failed to fetch the total number of NFTs:" (Some e)])
        end
    end.
Proof.
  unfold getSupply, try_catch. rewrite read_body_cases.
  destruct (contract (conn w)) as [h|]; [|reflexivity].
  destruct (c_getSupply h); [reflexivity|].
  unfold bind, console_error, emit, throw, after. simpl. now rewrite <- app_assoc.
Qed.

Lemma getSharedWithSupply_cases w :
  getSharedWithSupply w =
    match contract (conn w) with
    | None => (Ok NaN, w)
    | Some h =>
        match c_getSharedWithSupply h with
        | Ok n =>
            (Ok (Number (VBigInt n)), after w [ContractCall "getSharedWithSupply" []])
        | Throw e =>
            (Throw e,
             after w [ContractCall "getSharedWithSupply" [];
                      ConsoleError "Failed to fetch the total number of NFTs shared: "
                                   (Some e)])
        end
    end.
Proof.
  unfold getSharedWithSupply, try_catch. rewrite read_body_cases.
  destruct (contract (conn w)) as [h|]; [|reflexivity].
  destruct (c_getSharedWithSupply h); [reflexivity|].
  unfold bind, console_error, emit, throw, after. simpl. now rewrite <- app_assoc.
Qed.

(** Settle one line of the outcome table of a supply count. *)
Ltac supply_line w :=
  destruct (contract (conn w)) as [h|];
  [ match goal with
    | |- context [match ?r with Ok _ => _ | Throw _ => _ end] =>
        let Hr := fresh "Hr" in destruct r as [z|e0] eqn:Hr
    end | ]; simpl.

(** X9. The outcomes of [getSupply] and [getSharedWithSupply] tell the
    situations apart: [NaN] exactly when the contract handle is absent;
    any other number exactly when the bound contract answered a count, of
    which it is [Number], that is the count itself up to 2^53 and the
    nearest double beyond; an exception [e] exactly when the bound
    contract rejected with [e]. *)
Theorem supply_outcomes w :
  (fst (getSupply w) = Ok NaN <-> contract (conn w) = None)
  /\ (forall v, v <> NaN ->
        (fst (getSupply w) = Ok v <->
         exists h n, contract (conn w) = Some h /\ c_getSupply h = Ok n
                     /\ v = Number (VBigInt n)))
  /\ (forall h n, contract (conn w) = Some h -> c_getSupply h = Ok n ->
        Z.abs n <= 2 ^ 53 -> fst (getSupply w) = Ok (Num n))
  /\ (forall e, fst (getSupply w) = Throw e <->
        exists h, contract (conn w) = Some h /\ c_getSupply h = Throw e)
  /\ (fst (getSharedWithSupply w) = Ok NaN <-> contract (conn w) = None)
  /\ (forall v, v <> NaN ->
        (fst (getSharedWithSupply w) = Ok v <->
         exists h n, contract (conn w) = Some h /\ c_getSharedWithSupply h = Ok n
                     /\ v = Number (VBigInt n)))
  /\ (forall h n, contract (conn w) = Some h -> c_getSharedWithSupply h = Ok n ->
        Z.abs n <= 2 ^ 53 -> fst (getSharedWithSupply w) = Ok (Num n))
  /\ (forall e, fst (getSharedWithSupply w) = Throw e <->
        exists h, contract (conn w) = Some h /\ c_getSharedWithSupply h = Throw e).
Proof.
  rewrite getSupply_cases, getSharedWithSupply_cases.
  repeat match goal with |- _ /\ _ => split end.
  - supply_line w.
    + split; [intros [= H]; now elim (Number_bigint_not_NaN z) | discriminate].
    + split; discriminate.
    + split; reflexivity.
  - intros v Hv. supply_line w.
    + split; [intros [= <-]; exists h, z; auto|].
      intros (h' & n & [= <-] & Hn & ->). congruence.
    + split; [discriminate|]. intros (h' & n & [= <-] & Hn & _). congruence.
    + split; [intros [= <-]; contradiction|]. intros (h' & n & Hc & _). discriminate.
  - intros h n -> -> Hn. cbn [fst]. now rewrite (Number_exact n Hn).
  - intros e. supply_line w.
    + split; [discriminate|]. intros (h' & [= <-] & Hn). congruence.
    + split; [intros [= <-]; exists h; auto|]. intros (h' & [= <-] & Hn). congruence.
    + split; [discriminate|]. intros (h' & Hc & _). discriminate.
  - supply_line w.
    + split; [intros [= H]; now elim (Number_bigint_not_NaN z) | discriminate].
    + split; discriminate.
    + split; reflexivity.
  - intros v Hv. supply_line w.
    + split; [intros [= <-]; exists h, z; auto|].
      intros (h' & n & [= <-] & Hn & ->). congruence.
    + split; [discriminate|]. intros (h' & n & [= <-] & Hn & _). congruence.
    + split; [intros [= <-]; contradiction|]. intros (h' & n & Hc & _). discriminate.
  - intros h n -> -> Hn. cbn [fst]. now rewrite (Number_exact n Hn).
  - intros e. supply_line w.
    + split; [discriminate|]. intros (h' & [= <-] & Hn). congruence.
    + split; [intros [= <-]; exists h; auto|]. intros (h' & [= <-] & Hn). congruence.
    + split; [discriminate|]. intros (h' & Hc & _). discriminate.
Qed.

Lemma getSharedWithAddresses_cases id w :
  getSharedWithAddresses id w =
    match contract (conn w) with
    | None => (Ok None, w)
    | Some h =>
        match c_getSharedWithAddresses h id with
        | Ok addresses =>
            (Ok (Some addresses),
             after w [ContractCall "getSharedWithAddresses" [ANum id]])
        | Throw e =>
            (Ok (Some []),
             after w [ContractCall "getSharedWithAddresses" [ANum id];
                      ConsoleError "Error fetching shared addresses:" (Some e)])
        end
    end.
Proof.
  unfold getSharedWithAddresses, try_catch. rewrite read_body_cases.
  destruct (contract (conn w)) as [h|]; [|reflexivity].
  destruct (c_getSharedWithAddresses h id); [reflexivity|].
  now rewrite handler_default, after_after.
Qed.

Lemma getMaxUsersToRemove_cases w :
  getMaxUsersToRemove w =
    match contract (conn w) with
    | None => (Ok None, w)
    | Some h =>
        match c_MAX_USERS_TO_REMOVE h with
        | Ok n => (Ok (Some n), after w [ContractCall "MAX_USERS_TO_REMOVE" []])
        | Throw e =>
            (Ok (Some 0),
             after w [ContractCall "MAX_USERS_TO_REMOVE" [];
                      ConsoleError "Error fetching MAX_USERS_TO_REMOVE:" (Some e)])
        end
    end.
Proof.
  unfold getMaxUsersToRemove, try_catch. rewrite read_body_cases.
  destruct (contract (conn w)) as [h|]; [|reflexivity].
  destruct (c_MAX_USERS_TO_REMOVE h); [reflexivity|].
  now rewrite handler_default, after_after.
Qed.

Lemma reencrypt_cases id key sig w :
  reencrypt id key sig w =
    match contract (conn w) with
    | None => (Ok [], after w [ConsoleError "No return for contract.reencrypt" None])
    | Some h =>
        match c_reencrypt h id key sig with
        | Ok data =>
            (Ok data,
             after w [ContractCall "reencrypt" [ANum id; ABytes key; AStr sig]])
        | Throw e =>
            (Ok [],
             after w [ContractCall "reencrypt" [ANum id; ABytes key; AStr sig];
                      ConsoleError "Error fetching contract.reencrypt :" (Some e)])
        end
    end.
Proof.
  unfold reencrypt, try_catch. rewrite read_body_cases.
  destruct (contract (conn w)) as [h|]; [|reflexivity].
  destruct (c_reencrypt h id key sig); [reflexivity|].
  now rewrite handler_default, after_after.
Qed.

(** X10. [getSharedWithAddresses] and [getMaxUsersToRemove] return
    [undefined] exactly when the contract handle is absent; with a bound
    handle they return the contract's answer, or their default (the empty
    sequence, 0) when the contract rejects. *)
Theorem optional_reads_outcomes w :
  (forall id, fst (getSharedWithAddresses id w) = Ok None <-> contract (conn w) = None)
  /\ (forall id h, contract (conn w) = Some h ->
        fst (getSharedWithAddresses id w) =
          Ok (Some (match c_getSharedWithAddresses h id with
                    | Ok addresses => addresses
                    | Throw _ => []
                    end)))
  /\ (fst (getMaxUsersToRemove w) = Ok None <-> contract (conn w) = None)
  /\ (forall h, contract (conn w) = Some h ->
        fst (getMaxUsersToRemove w) =
          Ok (Some (match c_MAX_USERS_TO_REMOVE h with
                    | Ok n => n
                    | Throw _ => 0
                    end))).
Proof.
  split; [|split; [|split]]; intros.
  - rewrite getSharedWithAddresses_cases.
    destruct (contract (conn w)) as [h|]; [|split; reflexivity].
    destruct (c_getSharedWithAddresses h id); split; discriminate.
  - rewrite getSharedWithAddresses_cases, H.
    now destruct (c_getSharedWithAddresses h id).
  - rewrite getMaxUsersToRemove_cases.
    destruct (contract (conn w)) as [h|]; [|split; reflexivity].
    destruct (c_MAX_USERS_TO_REMOVE h); split; discriminate.
  - rewrite getMaxUsersToRemove_cases, H.
    now destruct (c_MAX_USERS_TO_REMOVE h).
Qed.

(** X11. [reencrypt] always returns a sequence, never [undefined]: the
    ciphertexts of the contract when the handle is bound and the call
    resolves, and the empty sequence otherwise; a missing handle is
    logged as a missing return, and no contract call is recorded for it. *)
Theorem reencrypt_outcomes id key sig w :
  fst (reencrypt id key sig w) =
    Ok (match contract (conn w) with
        | Some h => match c_reencrypt h id key sig with Ok data => data | Throw _ => [] end
        | None => []
        end)
  /\ (contract (conn w) = None ->
      snd (reencrypt id key sig w) =
        after w [ConsoleError "No return for contract.reencrypt" None]).
Proof.
  rewrite reencrypt_cases.
  destruct (contract (conn w)) as [h|].
  - split; [|discriminate]. now destruct (c_reencrypt h id key sig).
  - split; reflexivity.
Qed.

(** X12. A range query follows the token identifiers of the response. With
    at least as many cid hashes as token identifiers it returns one token
    per identifier, the [i]-th carrying the [i]-th identifier and the
    [i]-th cid hash: surplus cid hashes are dropped. With fewer cid hashes
    the access to the first missing one raises a RangeError, which is
    logged, and the query returns the empty sequence. *)
Theorem range_queries_follow_token_ids w h start count ids cids :
  contract (conn w) = Some h ->
  (c_getTokensInRange h start (js_add start count) = Ok (ids, cids) ->
   ((length ids <= length cids)%nat ->
    exists tokens,
      fst (getTokensInRange start count w) = Ok tokens
      /\ length tokens = length ids
      /\ forall i id, nth_error ids i = Some id ->
           exists cid, nth_error cids i = Some cid
                       /\ nth_error tokens i = Some (mkTokenDetails (Num id) (Some cid)))
   /\ ((length cids < length ids)%nat ->
       getTokensInRange start count w =
         (Ok [],
          after w [ContractCall "getTokensInRange"
                                [ANum start; ANumber (js_add start count)];
                   ConsoleError "Error contract.getTokensInRange:"
                                (Some (RangeError "out of result range"))])))
  /\ (c_getSharedTokensInRange h start (js_add start count) = Ok (ids, cids) ->
      ((length ids <= length cids)%nat ->
       exists tokens,
         fst (getSharedTokensInRange start count w) = Ok tokens
         /\ length tokens = length ids
         /\ forall i id, nth_error ids i = Some id ->
              exists cid, nth_error cids i = Some cid
                          /\ nth_error tokens i = Some (mkTokenDetails (Num id) (Some cid)))
      /\ ((length cids < length ids)%nat ->
          getSharedTokensInRange start count w =
            (Ok [],
             after w [ContractCall "getSharedTokensInRange"
                                   [ANum start; ANumber (js_add start count)];
                      ConsoleError "Error in fetching shared tokens:"
                                   (Some (RangeError "out of result range"))]))).
Proof.
  intros Hc.
  assert (Hfull : (length ids <= length cids)%nat ->
            exists tokens,
              pair_tokens ids cids = Ok tokens
              /\ length tokens = length ids
              /\ forall i id, nth_error ids i = Some id ->
                   exists cid, nth_error cids i = Some cid
                     /\ nth_error tokens i = Some (mkTokenDetails (Num id) (Some cid))).
  { intros Hlen.
    destruct (pair_tokens_at ids cids Hlen) as (tokens & Hpair & Hlength & Hnth).
    exists tokens. split; [exact Hpair|]. split; [exact Hlength|].
    intros i id Hid.
    destruct (nth_error cids i) as [cid|] eqn:Hcid.
    - exists cid. split; [reflexivity|]. now rewrite Hnth, Hid, Hcid.
    - apply nth_error_None in Hcid.
      assert (i < length ids)%nat by (apply nth_error_Some; congruence). lia. }
  split; intros Hresp; split; intros Hlen.
  - destruct (Hfull Hlen) as (tokens & Hpair & Hrest). exists tokens.
    unfold getTokensInRange. rewrite range_query_cases. cbv zeta.
    rewrite Hc, Hresp, Hpair. split; [reflexivity | exact Hrest].
  - unfold getTokensInRange. rewrite range_query_cases. cbv zeta.
    now rewrite Hc, Hresp, (pair_tokens_short ids cids Hlen).
  - destruct (Hfull Hlen) as (tokens & Hpair & Hrest). exists tokens.
    unfold getSharedTokensInRange. rewrite range_query_cases. cbv zeta.
    rewrite Hc, Hresp, Hpair. split; [reflexivity | exact Hrest].
  - unfold getSharedTokensInRange. rewrite range_query_cases. cbv zeta.
    now rewrite Hc, Hresp, (pair_tokens_short ids cids Hlen).
Qed.

Lemma range_queries_follow_token_ids_witness :
  getTokensInRange 3 2 (bound_world_of (bare_contract (sample_tx []))) =
    (Ok [],
     after (bound_world_of (bare_contract (sample_tx [])))
       [ContractCall "getTokensInRange" [ANum 3; ANumber (js_add 3 2)];
        ConsoleError "Error contract.getTokensInRange:"
                     (Some (RangeError "out of result range"))])
  /\ (exists tokens,
        fst (getSharedTokensInRange 3 2 (bound_world_of (bare_contract (sample_tx []))))
          = Ok tokens
        /\ length tokens = length [3]
        /\ forall i id, nth_error [3] i = Some id ->
             exists cid, nth_error ["QmC"; "QmD"] i = Some cid
                         /\ nth_error tokens i = Some (mkTokenDetails (Num id) (Some cid))).
Proof.
  split.
  - refine (proj2 (proj1 (range_queries_follow_token_ids
                            (bound_world_of (bare_contract (sample_tx [])))
                            (bare_contract (sample_tx [])) 3 2 [3; 3 + 1; 3 + 2] ["QmA"]
                            eq_refl) eq_refl) _).
    simpl. lia.
  - refine (proj1 (proj2 (range_queries_follow_token_ids
                            (bound_world_of (bare_contract (sample_tx [])))
                            (bare_contract (sample_tx [])) 3 2 [3] ["QmC"; "QmD"]
                            eq_refl) eq_refl) _).
    simpl. lia.
Defined.

(** X13. A range query answers a rejected contract call with the empty
    sequence, after logging the error; hence a non-empty result always
    is the pairing of a resolved contract response. The end index handed
    to the contract is the sum of the two numbers as JavaScript adds
    them. *)
Theorem range_queries_empty_on_failure w start count :
  (forall h e, contract (conn w) = Some h ->
     c_getTokensInRange h start (js_add start count) = Throw e ->
     getTokensInRange start count w =
       (Ok [],
        after w [ContractCall "getTokensInRange"
                              [ANum start; ANumber (js_add start count)];
                 ConsoleError "Error contract.getTokensInRange:" (Some e)]))
  /\ (forall h e, contract (conn w) = Some h ->
     c_getSharedTokensInRange h start (js_add start count) = Throw e ->
     getSharedTokensInRange start count w =
       (Ok [],
        after w [ContractCall "getSharedTokensInRange"
                              [ANum start; ANumber (js_add start count)];
                 ConsoleError "Error in fetching shared tokens:" (Some e)]))
  /\ (forall tokens, fst (getTokensInRange start count w) = Ok tokens -> tokens <> [] ->
     exists h ids cids,
       contract (conn w) = Some h
       /\ c_getTokensInRange h start (js_add start count) = Ok (ids, cids)
       /\ pair_tokens ids cids = Ok tokens)
  /\ (forall tokens, fst (getSharedTokensInRange start count w) = Ok tokens -> tokens <> [] ->
     exists h ids cids,
       contract (conn w) = Some h
       /\ c_getSharedTokensInRange h start (js_add start count) = Ok (ids, cids)
       /\ pair_tokens ids cids = Ok tokens).
Proof.
  unfold getTokensInRange, getSharedTokensInRange. rewrite !range_query_cases.
  cbv zeta.
  split; [|split; [|split]].
  - intros h e -> ->. reflexivity.
  - intros h e -> ->. reflexivity.
  - intros tokens. destruct (contract (conn w)) as [h|].
    + destruct (c_getTokensInRange h start (js_add start count)) as [[ids cids]|e] eqn:Hr.
      * destruct (pair_tokens ids cids) as [paired|e] eqn:Hp; simpl.
        -- intros [= <-] _. exists h, ids, cids. repeat split; assumption.
        -- intros [= <-] Hne. contradiction.
      * simpl. intros [= <-] Hne. contradiction.
    + simpl. intros [= <-] Hne. contradiction.
  - intros tokens. destruct (contract (conn w)) as [h|].
    + destruct (c_getSharedTokensInRange h start (js_add start count))
        as [[ids cids]|e] eqn:Hr.
      * destruct (pair_tokens ids cids) as [paired|e] eqn:Hp; simpl.
        -- intros [= <-] _. exists h, ids, cids. repeat split; assumption.
        -- intros [= <-] Hne. contradiction.
      * simpl. intros [= <-] Hne. contradiction.
    + simpl. intros [= <-] Hne. contradiction.
Qed.

Lemma range_queries_empty_on_failure_witness :
  getTokensInRange 3 2 reverting_world =
    (Ok [],
     after reverting_world
       [ContractCall "getTokensInRange" [ANum 3; ANumber (js_add 3 2)];
        ConsoleError "Error contract.getTokensInRange:" (Some revert_error)])
  /\ exists h ids cids,
       contract (conn (bound_world (sample_tx []))) = Some h
       /\ c_getTokensInRange h 3 (js_add 3 2) = Ok (ids, cids)
       /\ pair_tokens ids cids
          = Ok [mkTokenDetails (Num 3) (Some "QmA"); mkTokenDetails (Num 4) (Some "QmB")].
Proof.
  split.
  - exact (proj1 (range_queries_empty_on_failure reverting_world 3 2)
                 reverting_contract revert_error eq_refl eq_refl).
  - refine (proj1 (proj2 (proj2 (range_queries_empty_on_failure
                                   (bound_world (sample_tx [])) 3 2)))
                  [mkTokenDetails (Num 3) (Some "QmA"); mkTokenDetails (Num 4) (Some "QmB")]
                  eq_refl _).
    discriminate.
Defined.

(** ** What reaches the chain *)

(** Close a goal about the effects of a run whose outcome table is in the
    goal: walk the table, then read the effects off the final world. *)
Ltac read_effects :=
  repeat match goal with
         | |- context [match ?x with _ => _ end] => destruct x
         end;
  first
    [ eexists; split; [reflexivity | split; unfold count; simpl; lia]
    | exists []; split; [now rewrite after_nil | split; unfold count; simpl; lia] ].

(** X14. No operation retries: whatever the connection, the arguments and
    the behaviour of the contract, each Call Adapter operation invokes at
    most one contract method and waits for at most one confirmation, and
    [getAccount] invokes none. *)
Theorem operations_attempt_once :
  (forall cid keys, single_attempt (mintToken cid keys))
  /\ (forall start count, single_attempt (getTokensInRange start count))
  /\ (forall start count, single_attempt (getSharedTokensInRange start count))
  /\ (forall id, single_attempt (getSharedWithAddresses id))
  /\ (forall to id, single_attempt (transferToken to id))
  /\ (forall to id, single_attempt (shareToken to id))
  /\ (forall id limit, single_attempt (burnToken id limit))
  /\ single_attempt getSupply
  /\ single_attempt getSharedWithSupply
  /\ (forall id key sig, single_attempt (reencrypt id key sig))
  /\ (forall id user, single_attempt (revokeTokenAccess id user))
  /\ (forall id limit, single_attempt (revokeAllSharedAccess id limit))
  /\ single_attempt getMaxUsersToRemove
  /\ (forall w, exists evs,
        snd (getAccount w) = after w evs /\ count is_chain_effect evs = 0%nat).
Proof.
  repeat match goal with |- _ /\ _ => split end; intros; try intros w.
  - pose proof (mintToken_cases cid keys w) as Hrun. cbv zeta in Hrun.
    rewrite Hrun. clear Hrun. read_effects.
  - unfold getTokensInRange. rewrite range_query_cases. cbv zeta. read_effects.
  - unfold getSharedTokensInRange. rewrite range_query_cases. cbv zeta. read_effects.
  - rewrite getSharedWithAddresses_cases. read_effects.
  - write_table. read_effects.
  - write_table. read_effects.
  - write_table. read_effects.
  - rewrite getSupply_cases. read_effects.
  - rewrite getSharedWithSupply_cases. read_effects.
  - rewrite reencrypt_cases. read_effects.
  - write_table. read_effects.
  - write_table. read_effects.
  - rewrite getMaxUsersToRemove_cases. read_effects.
  - unfold getAccount, bind at 1, get_conn.
    destruct (provider (conn w)) as [p|]; [|exists []; now rewrite after_nil].
    destruct (signer (conn w)) as [s|]; [|exists []; now rewrite after_nil].
    unfold try_catch, bind, external, console_error, console_error_msg, emit, ret. simpl.
    destruct (p_send p "eth_requestAccounts") as [[]|e]; simpl.
    + destruct (s_getAddress s) as [account|e]; simpl.
      * destruct (String.eqb account ""); simpl;
          eexists; (split; [unfold after; simpl; rewrite <- ?app_assoc; reflexivity|]);
          reflexivity.
      * eexists. split; [unfold after; simpl; rewrite <- ?app_assoc; reflexivity|].
        reflexivity.
    + eexists. split; [unfold after; simpl; rewrite <- ?app_assoc; reflexivity|].
      reflexivity.
Qed.

(** X15. With the contract handle absent nothing reaches the chain: every
    Call Adapter operation adds console output at most, no contract call
    and no confirmation wait. *)
Theorem nothing_on_chain_without_contract w :
  contract (conn w) = None ->
  (forall cid keys, off_chain (mintToken cid keys) w)
  /\ (forall start count, off_chain (getTokensInRange start count) w)
  /\ (forall start count, off_chain (getSharedTokensInRange start count) w)
  /\ (forall id, off_chain (getSharedWithAddresses id) w)
  /\ (forall to id, off_chain (transferToken to id) w)
  /\ (forall to id, off_chain (shareToken to id) w)
  /\ (forall id limit, off_chain (burnToken id limit) w)
  /\ off_chain getSupply w
  /\ off_chain getSharedWithSupply w
  /\ (forall id key sig, off_chain (reencrypt id key sig) w)
  /\ (forall id user, off_chain (revokeTokenAccess id user) w)
  /\ (forall id limit, off_chain (revokeAllSharedAccess id limit) w)
  /\ off_chain getMaxUsersToRemove w.
Proof.
  intros Hnone.
  repeat match goal with |- _ /\ _ => split end; intros; unfold off_chain.
  - pose proof (mintToken_cases cid keys w) as Hrun. cbv zeta in Hrun.
    rewrite Hrun, Hnone. eexists. split; reflexivity.
  - unfold getTokensInRange. rewrite range_query_cases. cbv zeta. rewrite Hnone.
    eexists. split; reflexivity.
  - unfold getSharedTokensInRange. rewrite range_query_cases. cbv zeta. rewrite Hnone.
    eexists. split; reflexivity.
  - rewrite getSharedWithAddresses_cases, Hnone. exists []. now rewrite after_nil.
  - write_table. rewrite Hnone. eexists. split; reflexivity.
  - write_table. rewrite Hnone.
    destruct (Nat.eqb (js_length to) 0); eexists; split; reflexivity.
  - write_table. rewrite Hnone. eexists. split; reflexivity.
  - rewrite getSupply_cases, Hnone. exists []. now rewrite after_nil.
  - rewrite getSharedWithSupply_cases, Hnone. exists []. now rewrite after_nil.
  - rewrite reencrypt_cases, Hnone. eexists. split; reflexivity.
  - write_table. rewrite Hnone. eexists. split; reflexivity.
  - write_table. rewrite Hnone. eexists. split; reflexivity.
  - rewrite getMaxUsersToRemove_cases, Hnone. exists []. now rewrite after_nil.
Qed.

Lemma nothing_on_chain_without_contract_witness :
  off_chain (mintToken "Qm123" []) absent_world
  /\ off_chain (transferToken "0xB0B" 7) absent_world
  /\ off_chain (burnToken 7 10) absent_world
  /\ off_chain getSupply absent_world.
Proof.
  destruct (nothing_on_chain_without_contract absent_world eq_refl)
    as (Hmint & _ & _ & _ & Htransfer & _ & Hburn & Hsupply & _).
  split; [|split; [|split]].
  - exact (Hmint "Qm123" []).
  - exact (Htransfer "0xB0B" 7).
  - exact (Hburn 7 10).
  - exact Hsupply.
Defined.

(** ** Connection Manager, in full *)

(** Run the initializer and keep the Connection State it leaves. *)
Ltac run_initializer :=
  unfold initializeProviderAndSigner, provider_getSigner, try_catch, bind, eval,
    external, get_conn, set_provider, set_signer, set_contract, console_warn,
    console_error, emit; simpl.

(** X16. Initialization replaces Connection State, it does not merge: the
    state it leaves depends on the environment alone, not on what was
    bound before. *)
Theorem initialize_replaces_connection b w1 w2 :
  conn (snd (initializeProviderAndSigner b w1))
    = conn (snd (initializeProviderAndSigner b w2)).
Proof.
  run_initializer.
  destruct (window_ethereum b) as [[e|]|err]; simpl; try reflexivity.
  destruct (new_BrowserProvider b e) as [p|err]; simpl; try reflexivity.
  destruct (e_request e "eth_requestAccounts") as [[]|err]; simpl; try reflexivity.
  destruct (p_getSigner p) as [s|err]; simpl; try reflexivity.
  destruct (new_Contract b contractAddress (Some s)) as [h|err]; reflexivity.
Qed.

(** Short of a bound contract, the initializer leaves nothing bound. *)
Lemma initialize_absent_unless_bound b w :
  contract (conn (snd (initializeProviderAndSigner b w))) = None ->
  conn (snd (initializeProviderAndSigner b w)) = all_absent.
Proof.
  run_initializer.
  destruct (window_ethereum b) as [[e|]|err]; simpl; try reflexivity.
  destruct (new_BrowserProvider b e) as [p|err]; simpl; try reflexivity.
  destruct (e_request e "eth_requestAccounts") as [[]|err]; simpl; try reflexivity.
  destruct (p_getSigner p) as [s|err]; simpl; try reflexivity.
  destruct (new_Contract b contractAddress (Some s)) as [h|err]; simpl;
    [discriminate | reflexivity].
Qed.

(** X17. The initializer binds the connection exactly when all five steps
    succeed: the wallet is injected, the provider is constructed, the
    account request is granted, the signer is derived and the contract is
    constructed; the three bindings are then those very objects. In every
    other case the three are absent. *)
Theorem initialize_binds_iff_all_steps_succeed b w :
  (contract (conn (snd (initializeProviderAndSigner b w))) <> None <->
   exists e p s h,
     window_ethereum b = Ok (Some e)
     /\ new_BrowserProvider b e = Ok p
     /\ e_request e "eth_requestAccounts" = Ok tt
     /\ p_getSigner p = Ok s
     /\ new_Contract b contractAddress (Some s) = Ok h)
  /\ (forall e p s h,
        window_ethereum b = Ok (Some e) ->
        new_BrowserProvider b e = Ok p ->
        e_request e "eth_requestAccounts" = Ok tt ->
        p_getSigner p = Ok s ->
        new_Contract b contractAddress (Some s) = Ok h ->
        conn (snd (initializeProviderAndSigner b w))
          = mkConn (Some p) (Some s) (Some h))
  /\ (contract (conn (snd (initializeProviderAndSigner b w))) = None ->
      conn (snd (initializeProviderAndSigner b w)) = all_absent).
Proof.
  split; [|split]; [| |apply initialize_absent_unless_bound]; run_initializer.
  - destruct (window_ethereum b) as [[e|]|err] eqn:He; simpl.
    + destruct (new_BrowserProvider b e) as [p|err] eqn:Hp; simpl.
      * destruct (e_request e "eth_requestAccounts") as [[]|err] eqn:Hq; simpl.
        -- destruct (p_getSigner p) as [s|err] eqn:Hs; simpl.
           ++ destruct (new_Contract b contractAddress (Some s)) as [h|err] eqn:Hh; simpl.
              ** split; [intros _; exists e, p, s, h; auto | discriminate].
              ** split; [contradiction|].
                 intros (e' & p' & s' & h' & [= <-] & Hp' & _ & Hs' & Hh').
                 congruence.
           ++ split; [contradiction|].
              intros (e' & p' & s' & h' & [= <-] & Hp' & _ & Hs' & _). congruence.
        -- split; [contradiction|].
           intros (e' & p' & s' & h' & [= <-] & _ & Hq' & _). congruence.
      * split; [contradiction|].
        intros (e' & p' & s' & h' & [= <-] & Hp' & _). congruence.
    + split; [contradiction|]. intros (e' & p' & s' & h' & He' & _). discriminate.
    + split; [contradiction|]. intros (e' & p' & s' & h' & He' & _). discriminate.
  - intros e p s h -> -> -> -> ->. reflexivity.
Qed.

(** ** The active account *)

Lemma getAccount_cases w :
  getAccount w =
    match provider (conn w), signer (conn w) with
    | Some p, Some s =>
        match p_send p "eth_requestAccounts" with
        | Throw e =>
            (Ok "",
             after w [ProviderSend "eth_requestAccounts";
                      ConsoleError "Could not get access to accounts:" (Some e)])
        | Ok _ =>
            match s_getAddress s with
            | Throw e =>
                (Ok "",
                 after w [ProviderSend "eth_requestAccounts"; SignerGetAddress;
                          ConsoleError "Could not get access to accounts:" (Some e)])
            | Ok account =>
                if String.eqb account ""
                then (Ok "",
                      after w [ProviderSend "eth_requestAccounts"; SignerGetAddress;
                               ConsoleError
                                 "No accessible accounts. Make sure MetaMask is connected."
                                 None])
                else (Ok account,
                      after w [ProviderSend "eth_requestAccounts"; SignerGetAddress])
            end
        end
    | _, _ => (Ok "", w)
    end.
Proof.
  unfold getAccount, bind at 1, get_conn.
  destruct (provider (conn w)) as [p|]; [|reflexivity].
  destruct (signer (conn w)) as [s|]; [|reflexivity].
  unfold try_catch, bind, external, console_error, console_error_msg, emit, ret, after.
  simpl.
  destruct (p_send p "eth_requestAccounts") as [[]|e]; simpl.
  - destruct (s_getAddress s) as [account|e]; simpl.
    + destruct (String.eqb account ""); simpl; rewrite <- ?app_assoc; reflexivity.
    + rewrite <- ?app_assoc. reflexivity.
  - rewrite <- ?app_assoc. reflexivity.
Qed.

(** X18. [getAccount] returns a non-empty string [a] exactly when provider
    and signer are both bound, the account request is granted and the
    signer's address is [a]. With provider or signer missing it returns
    the empty string without touching the wallet, and when the account
    request is rejected the signer is never asked for its address. *)
Theorem getAccount_outcomes w :
  (forall a, a <> "" ->
     (fst (getAccount w) = Ok a <->
      exists p s,
        provider (conn w) = Some p /\ signer (conn w) = Some s
        /\ p_send p "eth_requestAccounts" = Ok tt
        /\ s_getAddress s = Ok a))
  /\ (provider (conn w) = None \/ signer (conn w) = None ->
      getAccount w = (Ok "", w))
  /\ (forall p s e,
        provider (conn w) = Some p -> signer (conn w) = Some s ->
        p_send p "eth_requestAccounts" = Throw e ->
        getAccount w =
          (Ok "",
           after w [ProviderSend "eth_requestAccounts";
                    ConsoleError "Could not get access to accounts:" (Some e)])).
Proof.
  rewrite getAccount_cases.
  split; [|split].
  - intros a Ha.
    destruct (provider (conn w)) as [p|].
    2:{ split; [intros [= <-]; contradiction|].
        intros (p' & s' & Hp & _). discriminate. }
    destruct (signer (conn w)) as [s|].
    2:{ split; [intros [= <-]; contradiction|].
        intros (p' & s' & _ & Hs & _). discriminate. }
    destruct (p_send p "eth_requestAccounts") as [[]|e] eqn:Hsend.
    2:{ split; [intros [= <-]; contradiction|].
        intros (p' & s' & [= <-] & _ & Hsend' & _). congruence. }
    destruct (s_getAddress s) as [account|e] eqn:Haddr.
    2:{ split; [intros [= <-]; contradiction|].
        intros (p' & s' & _ & [= <-] & _ & Haddr'). congruence. }
    destruct (String.eqb_spec account "") as [-> | Hne]; simpl.
    + split; [intros [= <-]; contradiction|].
      intros (p' & s' & _ & [= <-] & _ & Haddr'). congruence.
    + split.
      * intros [= <-]. exists p, s. auto.
      * intros (p' & s' & _ & [= <-] & _ & Haddr'). congruence.
  - intros [-> | Hs]; [reflexivity|].
    rewrite Hs. now destruct (provider (conn w)).
  - intros p s e -> -> ->. reflexivity.
Qed.

Lemma getAccount_outcomes_witness :
  (fst (getAccount (bound_world (sample_tx []))) = Ok "0xA11CE" <->
   exists p s,
     provider (conn (bound_world (sample_tx []))) = Some p
     /\ signer (conn (bound_world (sample_tx []))) = Some s
     /\ p_send p "eth_requestAccounts" = Ok tt
     /\ s_getAddress s = Ok "0xA11CE")
  /\ getAccount (mkWorld (mkConn (Some sample_provider) None None) [])
     = (Ok "", mkWorld (mkConn (Some sample_provider) None None) []).
Proof.
  split.
  - refine (proj1 (getAccount_outcomes (bound_world (sample_tx []))) "0xA11CE" _).
    discriminate.
  - refine (proj1 (proj2 (getAccount_outcomes
                            (mkWorld (mkConn (Some sample_provider) None None) []))) _).
    right. reflexivity.
Defined.

Lemma optional_reads_outcomes_witness :
  fst (getSharedWithAddresses 7 reverting_world) = Ok (Some [])
  /\ fst (getMaxUsersToRemove (bound_world (sample_tx []))) = Ok (Some 10).
Proof.
  split.
  - exact (proj1 (proj2 (optional_reads_outcomes reverting_world)) 7
                 reverting_contract eq_refl).
  - exact (proj2 (proj2 (proj2 (optional_reads_outcomes (bound_world (sample_tx [])))))
                 (sample_contract (sample_tx [])) eq_refl).
Defined.

(** ** Initialization followed by a call *)

(** X19. When the initializer has not bound the contract (no wallet, or
    any step failed), the client is inert: [getAccount] returns the empty
    string without touching the wallet, every boolean write returns
    [false], and [mintToken] raises the TypeError of the missing
    transaction response. *)
Theorem unbound_client_is_inert b w0 :
  let w := snd (initializeProviderAndSigner b w0) in
  contract (conn w) = None ->
  getAccount w = (Ok "", w)
  /\ (forall to id, fst (transferToken to id w) = Ok false)
  /\ (forall to id, fst (shareToken to id w) = Ok false)
  /\ (forall id limit, fst (burnToken id limit w) = Ok false)
  /\ (forall id user, fst (revokeTokenAccess id user w) = Ok false)
  /\ (forall id limit, fst (revokeAllSharedAccess id limit w) = Ok false)
  /\ (forall cid keys, fst (mintToken cid keys w) = Throw no_wait).
Proof.
  intros w Hnone.
  pose proof (initialize_absent_unless_bound b w0 Hnone) as Habsent. fold w in Habsent.
  repeat match goal with |- _ /\ _ => split end; intros.
  - rewrite getAccount_cases, Habsent. reflexivity.
  - write_table. now rewrite Hnone.
  - write_table. rewrite Hnone. now destruct (Nat.eqb (js_length to) 0).
  - write_table. now rewrite Hnone.
  - write_table. now rewrite Hnone.
  - write_table. now rewrite Hnone.
  - pose proof (mintToken_cases cid keys w) as Hrun. cbv zeta in Hrun.
    rewrite Hrun, Hnone. reflexivity.
Qed.

Lemma unbound_client_is_inert_witness :
  getAccount (snd (initializeProviderAndSigner
                     rejecting_browser
                     (bound_world (sample_tx []))))
    = (Ok "",
       snd (initializeProviderAndSigner
              rejecting_browser
              (bound_world (sample_tx []))))
  /\ fst (transferToken "0xB0B" 7
            (snd (initializeProviderAndSigner
                    rejecting_browser
                    (bound_world (sample_tx []))))) = Ok false.
Proof.
  destruct (unbound_client_is_inert
              rejecting_browser
              (bound_world (sample_tx [])) eq_refl) as (Haccount & Htransfer & _).
  split; [exact Haccount | exact (Htransfer "0xB0B" 7)].
Defined.
